(** * Source provenance merge and artifact mapping

    A shallow embedding of [merge_results_with_cutouts] and its local
    helper [dedupe_sources] (src/lambdas/src/main.py, lines 191-295),
    together with the properties the specification states about them.

    The two extraction results the function receives are JSON-like Python
    values produced by external agents, so the embedding keeps them
    dynamically typed: a value is an atom, a list or a dict, and every
    operation the code applies to a value ([.get], [.copy], [.update],
    iteration, hashing, item assignment) is a function into a result type
    whose failure case is the Python exception raised on a value of the
    wrong shape.  The artifact map is typed as its docstring gives it
    ("unit1_fieldName" -> ["s3://..."]): a finite map from strings to lists
    of locator strings. *)

From Stdlib Require Import ZArith Ascii String.
From stdpp Require Import base option list strings pretty gmap.

Local Open Scope string_scope.
Local Open Scope list_scope.

(** ** Python values *)

(** The hashable JSON values.  Floating-point numbers are left out: the
    merge treats field values opaquely and never computes with them. *)
Inductive atom : Type :=
| ANone
| ABool (b : bool)
| AInt (z : Z)
| AStr (s : string).

(** A dict is an association list in insertion order; its keys are atoms,
    as every key of a Python dict is hashable. *)
#[warnings="-register-all"]
Inductive pyval : Type :=
| Atom (a : atom)
| PList (l : list pyval)
| PDict (d : list (atom * pyval)).

Abbreviation pydict := (list (atom * pyval)).

Abbreviation PNone := (Atom ANone).
Abbreviation PStr s := (Atom (AStr s)).

(** The exceptions the merge can raise. *)
Inductive exn : Type :=
| AttributeError
| TypeError
| ValueError
| KeyError.

Inductive result (A : Type) : Type :=
| Ok (a : A)
| Raise (e : exn).
Arguments Ok {A} a.
Arguments Raise {A} e.

Definition bind {A B} (m : result A) (k : A -> result B) : result B :=
  match m with
  | Ok a => k a
  | Raise e => Raise e
  end.

Notation "x <- m ;; k" := (bind m (fun x => k))
  (at level 100, m at next level, right associativity).

(** Python's [==] on hashable values: [True == 1] and [False == 0]. *)
Definition atom_eq (a b : atom) : bool :=
  match a, b with
  | ANone, ANone => true
  | ABool x, ABool y => Bool.eqb x y
  | ABool x, AInt y => Z.eqb (Z.b2z x) y
  | AInt x, ABool y => Z.eqb x (Z.b2z y)
  | AInt x, AInt y => Z.eqb x y
  | AStr x, AStr y => String.eqb x y
  | _, _ => false
  end.

(** [d.get(k)]: the first entry whose key equals [k]. *)
Fixpoint dict_get (k : atom) (d : pydict) : option pyval :=
  match d with
  | [] => None
  | (k', v) :: d' => if atom_eq k k' then Some v else dict_get k d'
  end.

(** [d[k] = v]: an existing key keeps its place (and its key object), a new
    key goes last. *)
Fixpoint dict_set (k : atom) (v : pyval) (d : pydict) : pydict :=
  match d with
  | [] => [(k, v)]
  | (k', v') :: d' =>
      if atom_eq k k' then (k', v) :: d' else (k', v') :: dict_set k v d'
  end.

(** [d.update(other)] for a dict [other]: its items are set in order. *)
Definition dict_update (d other : pydict) : pydict :=
  fold_left (fun acc kv => dict_set kv.1 kv.2 acc) other d.

(** The invariant of every Python dict: no two entries have equal keys. *)
Fixpoint dict_wf (d : pydict) : Prop :=
  match d with
  | [] => True
  | (k, _) :: d' => dict_get k d' = None /\ dict_wf d'
  end.

(** Python's [==] on values: lists compare element by element, dicts as
    maps, whatever the order of their entries. *)
Fixpoint py_eq (x y : pyval) {struct x} : bool :=
  match x, y with
  | Atom a, Atom b => atom_eq a b
  | PList xs, PList ys =>
      (fix all2 (xs ys : list pyval) {struct xs} : bool :=
         match xs, ys with
         | [], [] => true
         | x' :: xs', y' :: ys' => py_eq x' y' && all2 xs' ys'
         | _, _ => false
         end) xs ys
  | PDict d, PDict e =>
      Nat.eqb (length d) (length e) &&
      (fix all (d : pydict) {struct d} : bool :=
         match d with
         | [] => true
         | (k, v) :: d' =>
             match dict_get k e with
             | Some w => py_eq v w
             | None => false
             end && all d'
         end) d
  | _, _ => false
  end.

(** Truth value of a value in a condition ([if x:], [x or y]). *)
Definition py_truthy (x : pyval) : bool :=
  match x with
  | Atom ANone => false
  | Atom (ABool b) => b
  | Atom (AInt z) => negb (Z.eqb z 0)
  | Atom (AStr s) => negb (String.eqb s "")
  | PList l => negb (Nat.eqb (length l) 0)
  | PDict d => negb (Nat.eqb (length d) 0)
  end.

(** [x or y] *)
Definition py_or (x y : pyval) : pyval := if py_truthy x then x else y.

(** [x.get(k, dflt)]: only a dict has a [get] method. *)
Definition py_get (x : pyval) (k : string) (dflt : pyval) : result pyval :=
  match x with
  | PDict d => Ok (default dflt (dict_get (AStr k) d))
  | _ => Raise AttributeError
  end.

(** [x[k]] for a string [k]. *)
Definition py_getitem (x : pyval) (k : string) : result pyval :=
  match x with
  | PDict d =>
      match dict_get (AStr k) d with
      | Some v => Ok v
      | None => Raise KeyError
      end
  | _ => Raise TypeError
  end.

(** [x[k] = v] for a string [k]: a list takes integer indices only, and
    the atoms support no item assignment. *)
Definition py_setitem (x : pyval) (k : string) (v : pyval) : result pyval :=
  match x with
  | PDict d => Ok (PDict (dict_set (AStr k) v d))
  | _ => Raise TypeError
  end.

(** [x.copy()]: dicts and lists have a (shallow) [copy]; values are
    immutable here, so the copy is the value itself. *)
Definition py_copy (x : pyval) : result pyval :=
  match x with
  | Atom _ => Raise AttributeError
  | _ => Ok x
  end.

(** The elements [for e in x] runs through: the items of a list, the keys
    of a dict, the characters of a string (one [ascii] per character). *)
Definition py_iter (x : pyval) : result (list pyval) :=
  match x with
  | PList l => Ok l
  | PDict d => Ok ((fun kv => Atom kv.1) <$> d)
  | Atom (AStr s) =>
      Ok ((fun c => PStr (String c EmptyString)) <$> list_ascii_of_string s)
  | Atom _ => Raise TypeError
  end.

(** Hashing, as [key in seen] and [d[k] = v] do it: lists and dicts are
    unhashable. *)
Definition py_hash (x : pyval) : result atom :=
  match x with
  | Atom a => Ok a
  | _ => Raise TypeError
  end.

(** One step of [d.update(seq)] for a sequence of pairs: the element is
    turned into a sequence, which must have exactly two items. *)
Definition update_pair (acc : pydict) (e : pyval) : result pydict :=
  kv <- py_iter e ;;
  match kv with
  | [k; v] => a <- py_hash k ;; Ok (dict_set a v acc)
  | _ => Raise ValueError
  end.

Fixpoint update_pairs (acc : pydict) (es : list pyval) : result pydict :=
  match es with
  | [] => Ok acc
  | e :: es' => acc' <- update_pair acc e ;; update_pairs acc' es'
  end.

(** [x.update(other)]: only a dict has [update]; [other] is a mapping or
    an iterable of key/value pairs. *)
Definition py_update (x other : pyval) : result pyval :=
  match x with
  | PDict d =>
      match other with
      | PDict o => Ok (PDict (dict_update d o))
      | _ => es <- py_iter other ;; d' <- update_pairs d es ;; Ok (PDict d')
      end
  | _ => Raise AttributeError
  end.

(** [str(a)], as an f-string renders a hashable value. *)
Definition atom_str (a : atom) : string :=
  match a with
  | ANone => "None"
  | ABool true => "True"
  | ABool false => "False"
  | AInt z => pretty z
  | AStr s => s
  end.

(** ** The merge *)

(** A citation's dedup key [(field, chunk_id)]. *)
Abbreviation key := (atom * atom)%type.

Definition key_eq (k1 k2 : key) : bool :=
  atom_eq k1.1 k2.1 && atom_eq k1.2 k2.2.

(** [key in seen] *)
Definition key_in (k : key) (seen : list key) : bool :=
  existsb (key_eq k) seen.

(** [key = (source.get('field'), source.get('chunk_id'))], hashed by the
    membership test that follows it. *)
Definition source_key (source : pyval) : result key :=
  field <- py_get source "field" PNone ;;
  chunk_id <- py_get source "chunk_id" PNone ;;
  f <- py_hash field ;;
  c <- py_hash chunk_id ;;
  Ok (f, c).

(** The loop of [dedupe_sources]; [seen] is the set of keys met so far.
    Each kept source is returned with its key, the two values the callers
    read back from it with the same two [.get] calls. *)
Fixpoint dedupe_loop (seen : list key) (sources : list pyval)
  : result (list (key * pyval)) :=
  match sources with
  | [] => Ok []
  | source :: rest =>
      k <- source_key source ;;
      if key_in k seen then dedupe_loop seen rest
      else filtered <- dedupe_loop (k :: seen) rest ;;
           Ok ((k, source) :: filtered)
  end.

Definition dedupe_keyed (sources : pyval) : result (list (key * pyval)) :=
  items <- py_iter (py_or sources (PList [])) ;;
  dedupe_loop [] items.

Definition dedupe_sources (sources : pyval) : result (list pyval) :=
  filtered <- dedupe_keyed sources ;;
  Ok (filtered.*2).

(** [dedupe_sources(u.get('sources', []))] as the loops at lines 245 and
    272 consume it: the [(field, chunk_id)] of each kept source. *)
Definition deduped_citations (u : pyval) : result (list key) :=
  raw <- py_get u "sources" (PList []) ;;
  filtered <- dedupe_keyed raw ;;
  Ok (filtered.*1).

(** The merged unit built at lines 226-230. *)
Record merged_unit : Type := MergedUnit {
  mu_unit : pyval;
  mu_sources : list pyval;
  mu_confidence : pyval
}.

Section Merge.

(** [s3_cutout_paths] *)
Variable s3_cutout_paths : gmap string (list string).

(** [f"unit{unit_number}_{field}"] *)
Definition field_key (unit_number : nat) (field : atom) : string :=
  "unit" +:+ pretty unit_number +:+ "_" +:+ atom_str field.

(** [s3_cutout_paths.get(field_key, [])] *)
Definition s3_uris (unit_number : nat) (field : atom) : list string :=
  default [] (s3_cutout_paths !! field_key unit_number field).

(** Lines 246-266: the source emitted for a contract citation. *)
Definition contract_source (unit_number : nat) (k : key) : pyval :=
  let '(field, chunk_id) := k in
  let chunk_file_key :=
    match s3_uris unit_number field with
    | uri :: _ => AStr uri
    | [] => if atom_eq chunk_id (AStr "calculated") then ANone else chunk_id
    end in
  PDict [(AStr "field", Atom field);
         (AStr "chunk_id", Atom chunk_id);
         (AStr "chunk_file_key", Atom chunk_file_key)].

(** Lines 280-291: the source emitted for an installment citation. *)
Definition installment_source (unit_number : nat) (k : key) : pyval :=
  let '(field, chunk_id) := k in
  let chunk_file_key :=
    match s3_uris unit_number field with
    | uri :: _ => AStr uri
    | [] => chunk_id
    end in
  PDict [(AStr "field", Atom field);
         (AStr "chunk_file_key", Atom chunk_file_key)].

(** Line 277:
    [any(s['field'] == field and s.get('chunk_id') == chunk_id
         for s in merged_unit['sources'])] *)
Fixpoint already_in_sources (k : key) (sources : list pyval) : result bool :=
  match sources with
  | [] => Ok false
  | s :: rest =>
      f <- py_getitem s "field" ;;
      if py_eq f (Atom k.1) then
        c <- py_get s "chunk_id" PNone ;;
        if py_eq c (Atom k.2) then Ok true else already_in_sources k rest
      else already_in_sources k rest
  end.

(** Lines 272-291: the loop over the deduplicated installment citations. *)
Fixpoint append_installment_sources (unit_number : nat)
    (sources : list pyval) (ks : list key) : result (list pyval) :=
  match ks with
  | [] => Ok sources
  | k :: rest =>
      dup <- already_in_sources k sources ;;
      if dup then append_installment_sources unit_number sources rest
      else append_installment_sources unit_number
             (sources ++ [installment_source unit_number k]) rest
  end.

(** Lines 233-242.  [counterpart] is [installment_result !! unit_idx]:
    [Some] exactly when [unit_idx < len(installment_result)]. *)
Definition add_installment_data (counterpart : option pyval)
    (unit confidence : pyval) : result (pyval * pyval) :=
  match counterpart with
  | Some installment_unit =>
      iu <- py_get installment_unit "unit" (PDict []) ;;
      installment_plans <- py_get iu "installmentPlans" (PList []) ;;
      unit' <- (if py_truthy installment_plans
                then py_setitem unit "installmentPlans" installment_plans
                else Ok unit) ;;
      installment_confidence <- py_get installment_unit "confidence" (PDict []) ;;
      confidence' <- py_update confidence installment_confidence ;;
      Ok (unit', confidence')
  | None => Ok (unit, confidence)
  end.

(** Lines 269-291. *)
Definition add_installment_sources (counterpart : option pyval)
    (unit_number : nat) (sources : list pyval) : result (list pyval) :=
  match counterpart with
  | Some installment_unit =>
      installment_citations <- deduped_citations installment_unit ;;
      append_installment_sources unit_number sources installment_citations
  | None => Ok sources
  end.

(** The body of the loop over the contract units (lines 223-293). *)
Definition merge_unit (installment_result : list pyval)
    (unit_idx : nat) (contract_unit : pyval) : result merged_unit :=
  let unit_number := unit_idx + 1 in
  unit0 <- py_get contract_unit "unit" (PDict []) ;;
  unit <- py_copy unit0 ;;
  confidence0 <- py_get contract_unit "confidence" (PDict []) ;;
  confidence <- py_copy confidence0 ;;
  merged <-
    add_installment_data (installment_result !! unit_idx) unit confidence ;;
  contract_citations <- deduped_citations contract_unit ;;
  let sources := contract_source unit_number <$> contract_citations in
  sources' <-
    add_installment_sources (installment_result !! unit_idx) unit_number sources ;;
  Ok (MergedUnit merged.1 sources' merged.2).

(** [for unit_idx, contract_unit in enumerate(contract_result)], from
    index [unit_idx] on. *)
Fixpoint merge_from (installment_result : list pyval) (unit_idx : nat)
    (contract_result : list pyval) : result (list merged_unit) :=
  match contract_result with
  | [] => Ok []
  | contract_unit :: rest =>
      merged <- merge_unit installment_result unit_idx contract_unit ;;
      merged_units <- merge_from installment_result (S unit_idx) rest ;;
      Ok (merged :: merged_units)
  end.

Definition merge_results_with_cutouts
    (contract_result installment_result : list pyval)
  : result (list merged_unit) :=
  merge_from installment_result 0 contract_result.

End Merge.

(** ** The declarative side of the deduplication *)

(** The elements of [l] whose key occurs neither in [earlier] nor at an
    element before them in [l]. *)
Fixpoint first_occurrences {A} (earlier : list key) (l : list (key * A))
  : list (key * A) :=
  match l with
  | [] => []
  | kx :: r =>
      (if key_in kx.1 earlier then [] else [kx])
        ++ first_occurrences (earlier ++ [kx.1]) r
  end.

(** No two of the keys are equal. *)
Fixpoint keys_distinct (ks : list key) : Prop :=
  match ks with
  | [] => True
  | k :: r => key_in k r = false /\ keys_distinct r
  end.

(** The installment citations the loop at lines 272-291 appends.
    [visible] lists, for the sources accumulated so far, the pair that
    the test of line 277 reads back from each: [(field, chunk_id)] for a
    contract source, [(field, None)] for an appended installment source,
    which carries no [chunk_id]. *)
Fixpoint kept_installment (visible : list key) (ks : list key) : list key :=
  match ks with
  | [] => []
  | k :: rest =>
      if key_in k visible then kept_installment visible rest
      else k :: kept_installment (visible ++ [(k.1, ANone)]) rest
  end.

(** ** Vocabulary of the statements *)

(** [s] is a citation with key [k]: a dict whose field and chunk
    identifier are hashable. *)
Definition has_key (s : pyval) (k : key) : Prop := source_key s = Ok k.

(** What line 277 reads back from an accumulated source. *)
Definition reads_as (s : pyval) (v : key) : Prop :=
  py_getitem s "field" = Ok (Atom v.1) /\
  py_get s "chunk_id" PNone = Ok (Atom v.2).

(** The citations of the counterpart unit, none when there is no
    counterpart. *)
Definition counterpart_citations (counterpart : option pyval)
  : result (list key) :=
  match counterpart with
  | Some installment_unit => deduped_citations installment_unit
  | None => Ok []
  end.

(** [s.get(name)] on an emitted source. *)
Definition source_get (s : pyval) (name : string) : option pyval :=
  match s with
  | PDict d => dict_get (AStr name) d
  | _ => None
  end.

(** The keys of an emitted source, in order. *)
Definition source_fields (s : pyval) : list atom :=
  match s with
  | PDict d => d.*1
  | _ => []
  end.

(** The artifact map has no locator for a field of a unit: no entry, or
    an empty list. *)
Definition no_artifact (M : gmap string (list string))
    (unit_number : nat) (field : atom) : Prop :=
  M !! field_key unit_number field = None \/
  M !! field_key unit_number field = Some [].

(** A sample job: one unit seen by both passes, with a repeated contract
    citation, a "calculated" citation on either side, an installment
    citation without chunk identifier, and one rendered field. *)
Definition sample_artifacts : gmap string (list string) :=
  {[ "unit1_buyerName" := ["loc1"; "loc2"] ]}.

Definition sample_contract : list pyval :=
  [PDict
     [(AStr "unit",
       PDict [(AStr "buyerName", PStr "Ana");
              (AStr "installmentPlans", PList [PStr "X"])]);
      (AStr "sources",
       PList [PDict [(AStr "field", PStr "buyerName"); (AStr "chunk_id", PStr "c1")];
              PDict [(AStr "field", PStr "total"); (AStr "chunk_id", PStr "calculated")];
              PDict [(AStr "field", PStr "buyerName"); (AStr "chunk_id", PStr "c1")]]);
      (AStr "confidence",
       PDict [(AStr "f1", PStr "high"); (AStr "f2", PStr "low")])]].

Definition sample_installment : list pyval :=
  [PDict
     [(AStr "unit",
       PDict [(AStr "installmentPlans", PList [PStr "Y"; PStr "Z"])]);
      (AStr "sources",
       PList [PDict [(AStr "field", PStr "total"); (AStr "chunk_id", PStr "calculated")];
              PDict [(AStr "field", PStr "fee"); (AStr "chunk_id", PStr "calculated")];
              PDict [(AStr "field", PStr "buyerName"); (AStr "chunk_id", PStr "c7")]]);
      (AStr "confidence",
       PDict [(AStr "f1", PStr "medium"); (AStr "f3", PStr "high")])]].

(** The citations of [kB] whose exact key occurs in [kA]. *)
Definition key_overlaps (kA kB : list key) : nat :=
  length (List.filter (fun k => key_in k kA) kB).

(** A map-like record. *)
Definition map_like (u : pyval) : Prop := exists d, u = PDict d.

(** A map-like unit record whose citation list, when it has one, holds
    map-like records. *)
Definition map_like_unit (u : pyval) : Prop :=
  exists d,
    u = PDict d /\
    forall srcs, dict_get (AStr "sources") d = Some (PList srcs) ->
                 Forall map_like srcs.

(** An entry of a unit record that must be a mapping when present. *)
Definition mapping_or_absent (o : option pyval) : Prop :=
  match o with
  | None => True
  | Some (PDict _) => True
  | Some _ => False
  end.

(** A citation: a map-like record whose field and chunk identifier, when
    present, are hashable. *)
Definition is_citation (s : pyval) : Prop := exists k, has_key s k.

(** The [sources] entry of a unit record: absent, null (or another false
    value), or a list of citations. *)
Definition citations_or_absent (o : option pyval) : Prop :=
  match o with
  | None => True
  | Some (PList srcs) => Forall is_citation srcs
  | Some x => py_truthy x = false
  end.

(** A unit record of the shape the extraction agents are to deliver:
    [{unit: mapping, sources: list of citations, confidence: mapping}],
    each entry optional. *)
Definition well_shaped (u : pyval) : Prop :=
  match u with
  | PDict d =>
      mapping_or_absent (dict_get (AStr "unit") d) /\
      mapping_or_absent (dict_get (AStr "confidence") d) /\
      citations_or_absent (dict_get (AStr "sources") d)
  | _ => False
  end.

(** ** The combination step of [main] (main.py, lines 745-770)

    Before the cutouts are extracted, [main] folds the installment
    result into [combined_result], a shallow copy of the contract list.
    The units of [combined_result] below [len(contract_result)] are the
    very dicts of [contract_result], so what the block writes into them
    shows through [contract_result], the list that
    [merge_results_with_cutouts] receives afterwards.  Both results are
    lists here, the case [main] goes on with, and they share no object,
    as two results parsed apart do not. *)

(** [x.extend(y)]: only a list has [extend]; [y] is any iterable. *)
Definition py_extend (x y : pyval) : result pyval :=
  match x with
  | PList l => items <- py_iter y ;; Ok (PList (l ++ items))
  | _ => Raise AttributeError
  end.

(** Lines 753-767, on [cu = combined_result[unit_idx]]: the unit as the
    block leaves it. *)
Definition combine_unit (cu installment_unit : pyval) : result pyval :=
  installment_sources <- py_get installment_unit "sources" (PList []) ;;
  iu <- py_get installment_unit "unit" (PDict []) ;;
  installment_plans <- py_get iu "installmentPlans" (PList []) ;;
  installment_confidence <- py_get installment_unit "confidence" (PDict []) ;;
  sources <- py_getitem cu "sources" ;;
  sources' <- py_extend sources installment_sources ;;
  cu1 <- py_setitem cu "sources" sources' ;;
  cu2 <- (if py_getitem cu1 "unit" is Ok _ then Ok cu1
          else py_setitem cu1 "unit" (PDict [])) ;;
  unit <- py_getitem cu2 "unit" ;;
  unit' <- py_setitem unit "installmentPlans" installment_plans ;;
  cu3 <- py_setitem cu2 "unit" unit' ;;
  cu4 <- (if py_getitem cu3 "confidence" is Ok _ then Ok cu3
          else py_setitem cu3 "confidence" (PDict [])) ;;
  confidence <- py_getitem cu4 "confidence" ;;
  confidence' <- py_update confidence installment_confidence ;;
  py_setitem cu4 "confidence" confidence'.

(** The loop of lines 750-770, from index [unit_idx] on. *)
Fixpoint combine_from (unit_idx : nat) (combined_result : list pyval)
    (installment_result : list pyval) : result (list pyval) :=
  match installment_result with
  | [] => Ok combined_result
  | installment_unit :: rest =>
      match combined_result !! unit_idx with
      | Some cu =>
          cu' <- combine_unit cu installment_unit ;;
          combine_from (S unit_idx) (<[unit_idx := cu']> combined_result) rest
      | None =>
          combine_from (S unit_idx) (combined_result ++ [installment_unit]) rest
      end
  end.

(** The block as a whole: [contract_result] as the block leaves it, and
    [combined_result]. *)
Definition combine_results (contract_result installment_result : list pyval)
  : result (list pyval * list pyval) :=
  combined_result <- combine_from 0 contract_result installment_result ;;
  Ok (take (length contract_result) combined_result, combined_result).

(** ** The coverage diagnostics (main.py, lines 297-309)

    [_log_chunk_coverage] collects in [missing] the unit number and the
    field of every source whose [chunk_id] is false in a condition, then
    prints a report of that list and returns nothing.  The list is what
    is embedded. *)

(** The inner loop (lines 300-302) over the sources of one unit. *)
Fixpoint missing_in_sources (unit_number : nat) (sources : list pyval)
  : result (list (nat * pyval)) :=
  match sources with
  | [] => Ok []
  | source :: rest =>
      chunk_id <- py_get source "chunk_id" PNone ;;
      if py_truthy chunk_id then missing_in_sources unit_number rest
      else field <- py_get source "field" PNone ;;
           missing <- missing_in_sources unit_number rest ;;
           Ok ((unit_number, field) :: missing)
  end.

(** The outer loop (line 299), from index [unit_idx] on. *)
Fixpoint missing_from (unit_idx : nat) (units : list pyval)
  : result (list (nat * pyval)) :=
  match units with
  | [] => Ok []
  | unit :: rest =>
      raw <- py_get unit "sources" (PList []) ;;
      sources <- py_iter raw ;;
      missing <- missing_in_sources (unit_idx + 1) sources ;;
      missing' <- missing_from (S unit_idx) rest ;;
      Ok (missing ++ missing')
  end.

(** [missing] at line 304, for [units]. *)
Definition chunk_coverage_missing (units : pyval)
  : result (list (nat * pyval)) :=
  us <- py_iter (py_or units (PList [])) ;;
  missing_from 0 us.

(** A source that the report counts as missing its chunk: its
    [chunk_id] is absent or false in a condition; [field] is what the
    report names. *)
Definition lacks_chunk (source field : pyval) : Prop :=
  exists chunk_id,
    py_get source "chunk_id" PNone = Ok chunk_id /\
    py_truthy chunk_id = false /\
    py_get source "field" PNone = Ok field.

(** The sources of a unit are the list [srcs] of map-like records. *)
Definition lists_sources (unit : pyval) (srcs : list pyval) : Prop :=
  py_get unit "sources" (PList []) = Ok (PList srcs) /\
  Forall map_like srcs.

(** A source with a chunk identifier that is true in a condition. *)
Definition has_chunk (s : pyval) : Prop :=
  exists c, py_get s "chunk_id" PNone = Ok c /\ py_truthy c = true.

(** ** The raw text file (main.py, lines 155-188)

    [save_raw_text_from_chunks] writes the chunk texts to a file, with a
    banner whenever the page changes.  The embedding computes the text
    written; an exception, which the function prints and raises again,
    ends the run (what was written before it stays in the file and is
    not modelled). *)

Definition newline : string := String (ascii_of_nat 10) EmptyString.

(** ['=' * 60] *)
Definition banner : string := string_of_list_ascii (replicate 60 "="%char).

(** [f.write(x)]: a text file takes a str only. *)
Definition py_write (x : pyval) : result string :=
  match x with
  | Atom (AStr s) => Ok s
  | _ => Raise TypeError
  end.

Section RawText.

(** [str(x)] for a list or a dict [x], which this development does not
    spell out. *)
Variable container_str : pyval -> string.

(** [f"{x}"] *)
Definition py_str (x : pyval) : string :=
  match x with
  | Atom a => atom_str a
  | _ => container_str x
  end.

(** The three writes of lines 175-177. *)
Definition page_marker (page : pyval) : string :=
  banner +:+ newline +:+
  "PAGE " +:+ py_str page +:+ newline +:+
  banner +:+ newline +:+ newline.

(** What lines 172-178 write for a chunk on [page]. *)
Definition page_change (current_page page : pyval) : string :=
  if py_eq page current_page then ""
  else (if current_page is PNone then "" else newline +:+ newline)
         +:+ page_marker page.

(** [current_page] after a chunk on [page]. *)
Definition next_page (current_page page : pyval) : pyval :=
  if py_eq page current_page then current_page else page.

(** The loop of lines 167-182, with [current_page] as it stands. *)
Fixpoint raw_text_from (current_page : pyval) (chunks : list pyval)
  : result string :=
  match chunks with
  | [] => Ok ""
  | chunk :: rest =>
      page <- py_get chunk "page" PNone ;;
      text <- py_get chunk "text" (PStr "") ;;
      written <- py_write text ;;
      more <- raw_text_from (next_page current_page page) rest ;;
      Ok (page_change current_page page +:+ written +:+ newline +:+ newline
            +:+ more)
  end.

Definition save_raw_text_from_chunks (chunks : list pyval) : result string :=
  raw_text_from PNone chunks.

(** [current_page] after the chunks, as far as they can be read. *)
Fixpoint page_after (current_page : pyval) (chunks : list pyval) : pyval :=
  match chunks with
  | [] => current_page
  | chunk :: rest =>
      match py_get chunk "page" PNone with
      | Ok page => page_after (next_page current_page page) rest
      | Raise _ => current_page
      end
  end.

End RawText.

(** The chunk texts, each followed by an empty line. *)
Fixpoint paragraphs (texts : list string) : string :=
  match texts with
  | [] => ""
  | t :: rest => t +:+ newline +:+ newline +:+ paragraphs rest
  end.

(** A chunk on page [page] with text [text]. *)
Definition chunk_on (page : atom) (chunk : pyval) (text : string) : Prop :=
  py_get chunk "page" PNone = Ok (Atom page) /\
  py_get chunk "text" (PStr "") = Ok (PStr text).

(** ** String operations

    A Python string is read as its sequence of characters, one [ascii]
    per character. *)

(** [sub in s] *)
Fixpoint str_contains (sub s : string) : bool :=
  String.prefix sub s ||
  match s with
  | EmptyString => false
  | String _ r => str_contains sub r
  end.

(** [s.endswith(c)] for a one-character [c]. *)
Fixpoint str_endswith (c : ascii) (s : string) : bool :=
  match s with
  | EmptyString => false
  | String a EmptyString => Ascii.eqb a c
  | String _ r => str_endswith c r
  end.

(** [s.rstrip(c)] for a one-character [c]: every trailing [c] goes. *)
Fixpoint str_rstrip (c : ascii) (s : string) : string :=
  match s with
  | EmptyString => EmptyString
  | String a r =>
      match str_rstrip c r with
      | EmptyString => if Ascii.eqb a c then EmptyString else String a EmptyString
      | r' => String a r'
      end
  end.

(** [s.split(sep)] for a one-character [sep]: never empty. *)
Fixpoint str_split (sep : ascii) (s : string) : list string :=
  match s with
  | EmptyString => [EmptyString]
  | String a r =>
      if Ascii.eqb a sep then EmptyString :: str_split sep r
      else match str_split sep r with
           | part :: parts => String a part :: parts
           | [] => [String a EmptyString]
           end
  end.

(** [s.split(sep, 1)] when [sep in s]: the text before the first [sep]
    and the text after it; [None] when [sep] is not in [s]. *)
Fixpoint str_split_once (sep : ascii) (s : string) : option (string * string) :=
  match s with
  | EmptyString => None
  | String a r =>
      if Ascii.eqb a sep then Some (EmptyString, r)
      else match str_split_once sep r with
           | Some (before, after) => Some (String a before, after)
           | None => None
           end
  end.

(** [s.replace('unit', '')]: the occurrences of "unit" go, left to right. *)
Fixpoint str_remove_unit (s : string) : string :=
  match s with
  | String "u" (String "n" (String "i" (String "t" r))) => str_remove_unit r
  | String a r => String a (str_remove_unit r)
  | EmptyString => EmptyString
  end.

(** ** The notification (http_provider.py, lines 43-53; main.py, lines
    338-346) *)

Definition results_route : string :=
  "/contract-to-extract/receive-extraction-results".

(** The endpoint that [send_extraction_results] posts to. *)
Definition endpoint_url (api_url : string) : string :=
  let base_url :=
    if str_endswith "/" api_url then str_rstrip "/" api_url else api_url in
  if str_contains "/api/v1" base_url
  then base_url +:+ results_route
  else base_url +:+ "/api/v1" +:+ results_route.

(** The payload that [send_extraction_results_to_endpoint] builds. *)
Definition extraction_payload
    (contract_id output_path status error_message error_type : pyval)
  : pydict :=
  let payload := [(AStr "contract_id", contract_id);
                  (AStr "output_path", output_path);
                  (AStr "status", status)] in
  let payload := if py_truthy error_message
                 then dict_set (AStr "error_message") error_message payload
                 else payload in
  if py_truthy error_type
  then dict_set (AStr "error_type") error_type payload
  else payload.

(** ** The download path of [handler] (main.py, lines 404-405) *)

(** [file_key.split('/')[-1]] *)
Definition file_name (file_key : string) : string :=
  List.last (str_split "/" file_key) EmptyString.

(** [f"/tmp/{file_name}"] *)
Definition local_file_path (file_key : string) : string :=
  "/tmp/" +:+ file_name file_key.

(** ** The upload of the cutouts (main.py, lines 31-109;
    s3_provider.py, lines 367-397)

    What lies outside the repository is a parameter: the state of the
    file system and of the bucket ([world]), [os.path.exists], the
    upload call of the S3 client (which returns the new state and
    whether it went through rather than raising), [os.path.splitext]
    (its second component) and [str.lower]. *)

(** Lines 62-72: the unit index and the field name read off a key. *)
Definition parse_field_key (field_key : string) : string * string :=
  match str_split_once "_" field_key with
  | Some (unit_part, field_name) => (str_remove_unit unit_part, field_name)
  | None => ("0", field_key)
  end.

(** Every character of [s] passes [P]. *)
Fixpoint str_forall (P : ascii -> bool) (s : string) : bool :=
  match s with
  | EmptyString => true
  | String a r => P a && str_forall P r
  end.

Definition digit_char (c : ascii) : bool :=
  (48 <=? nat_of_ascii c)%nat && (nat_of_ascii c <=? 57)%nat.

Section Upload.

Variable world : Type.
Variable path_exists : world -> string -> bool.
Variable s3_upload : world -> string -> string -> string -> string -> world * bool.
Variable splitext_ext : string -> string.
Variable str_lower : string -> string.

(** [S3Provider.upload_file_from_path]; [None] stands for the exception
    ([FileNotFoundError], or what the client raises). *)
Definition upload_file_from_path (w : world)
    (local_path bucket_name key content_type : string)
  : world * option string :=
  if negb (path_exists w local_path) then (w, None)
  else
    let r := s3_upload w local_path bucket_name key content_type in
    (r.1, if r.2 then Some ("s3://" +:+ bucket_name +:+ "/" +:+ key) else None).

(** Lines 84-91: [content_type_map.get(ext.lower(), ...)]. *)
Definition content_type_of (ext : string) : string :=
  let e := str_lower ext in
  if String.eqb e ".png" then "image/png"
  else if String.eqb e ".jpg" then "image/jpeg"
  else if String.eqb e ".jpeg" then "image/jpeg"
  else if String.eqb e ".gif" then "image/gif"
  else if String.eqb e ".webp" then "image/webp"
  else "application/octet-stream".

(** Line 81: the S3 key of a cutout. *)
Definition cutout_s3_key (job_id field_key local_path : string) : string :=
  let parsed := parse_field_key field_key in
  "contracts/" +:+ job_id +:+ "/images/unit_" +:+ parsed.1 +:+ "/"
    +:+ parsed.2 +:+ splitext_ext local_path.


(** Lines 74-106: the uploads of one key; a failed upload is skipped. *)
Fixpoint upload_paths (w : world) (bucket_name job_id field_key : string)
    (local_paths : list string) : world * list string :=
  match local_paths with
  | [] => (w, [])
  | local_path :: rest =>
      let ext := splitext_ext local_path in
      let s3_key := cutout_s3_key job_id field_key local_path in
      let r := upload_file_from_path w local_path bucket_name s3_key
                 (content_type_of ext) in
      let rs := upload_paths r.1 bucket_name job_id field_key rest in
      (rs.1, match r.2 with
             | Some s3_uri => s3_uri :: rs.2
             | None => rs.2
             end)
  end.

(** The loop over the items of [cutout_paths]; the result dict, in
    insertion order. *)
Fixpoint upload_cutouts_to_s3 (w : world)
    (cutout_paths : list (string * list string)) (bucket_name job_id : string)
  : world * list (string * list string) :=
  match cutout_paths with
  | [] => (w, [])
  | (field_key, local_paths) :: rest =>
      let r := upload_paths w bucket_name job_id field_key local_paths in
      let rs := upload_cutouts_to_s3 r.1 rest bucket_name job_id in
      (rs.1, (field_key, r.2) :: rs.2)
  end.

End Upload.

(** ** Basic facts *)

Lemma bind_Ok {A B} (m : result A) (k : A -> result B) (b : B) :
  bind m k = Ok b -> exists a, m = Ok a /\ k a = Ok b.
Proof. destruct m as [a|e]; simpl; [eauto | discriminate]. Qed.

Ltac inv_bind H :=
  let a := fresh "a" in
  let Ha := fresh "Hget" in
  apply bind_Ok in H; destruct H as (a & Ha & H).

Lemma atom_eq_refl a : atom_eq a a = true.
Proof.
  destruct a as [|b|z|s]; simpl; auto.
  - by destruct b.
  - apply Z.eqb_refl.
  - apply String.eqb_refl.
Qed.

Lemma atom_eq_sym a b : atom_eq a b = atom_eq b a.
Proof.
  destruct a as [|x|x|x], b as [|y|y|y]; simpl; auto.
  - by destruct x, y.
  - apply Z.eqb_sym.
  - apply Z.eqb_sym.
  - apply Z.eqb_sym.
  - apply String.eqb_sym.
Qed.

Lemma atom_eq_trans a b c :
  atom_eq a b = true -> atom_eq b c = true -> atom_eq a c = true.
Proof.
  destruct a as [|x|x|x], b as [|y|y|y], c as [|z|z|z]; simpl;
    try discriminate; auto;
    rewrite ?Z.eqb_eq, ?String.eqb_eq, ?Bool.eqb_true_iff;
    try congruence.
  - intros <- H. by destruct x, z.
Qed.

Lemma key_eq_refl k : key_eq k k = true.
Proof. unfold key_eq. by rewrite !atom_eq_refl. Qed.

Lemma key_eq_sym k1 k2 : key_eq k1 k2 = key_eq k2 k1.
Proof. unfold key_eq. by rewrite (atom_eq_sym k1.1), (atom_eq_sym k1.2). Qed.

Lemma key_eq_trans k1 k2 k3 :
  key_eq k1 k2 = true -> key_eq k2 k3 = true -> key_eq k1 k3 = true.
Proof.
  unfold key_eq. rewrite !andb_true_iff. intros [H1 H2] [H3 H4].
  split; eapply atom_eq_trans; eauto.
Qed.

(** Membership in the seen set does not tell equal keys apart. *)
Lemma key_in_proper k1 k2 seen :
  key_eq k1 k2 = true -> key_in k1 seen = key_in k2 seen.
Proof.
  intros H. unfold key_in. induction seen as [|k seen IH]; simpl; [done|].
  rewrite IH. f_equal.
  destruct (key_eq k2 k) eqn:E.
  - eapply key_eq_trans; eauto.
  - destruct (key_eq k1 k) eqn:E'; [|done].
    rewrite <- E. symmetry. eapply key_eq_trans; [|exact E'].
    by rewrite key_eq_sym.
Qed.

Lemma key_in_app k l1 l2 : key_in k (l1 ++ l2) = key_in k l1 || key_in k l2.
Proof. apply existsb_app. Qed.

Lemma key_in_true k l :
  key_in k l = true <-> exists k', k' ∈ l /\ key_eq k k' = true.
Proof.
  unfold key_in. rewrite existsb_exists.
  split; intros (k' & H1 & H2); exists k'; split; auto;
    by apply list_elem_of_In.
Qed.

Lemma key_in_false k l :
  key_in k l = false <-> forall k', k' ∈ l -> key_eq k k' = false.
Proof.
  split.
  - intros H k' Hk'. destruct (key_eq k k') eqn:E; [|done].
    rewrite <- H. symmetry. apply key_in_true. eauto.
  - intros H. destruct (key_in k l) eqn:E; [|done].
    apply key_in_true in E as (k' & Hk' & E). rewrite <- E. by apply H.
Qed.

(** ** Facts about [first_occurrences] *)

Section FirstOccurrences.
Context {A : Type}.
Implicit Types (l : list (key * A)) (earlier : list key).

Lemma first_occurrences_sublist earlier l :
  sublist (first_occurrences earlier l) l.
Proof.
  revert earlier. induction l as [|kx r IH]; intros earlier; simpl.
  - constructor.
  - destruct (key_in kx.1 earlier); simpl.
    + apply sublist_cons, IH.
    + apply sublist_skip, IH.
Qed.

Lemma first_occurrences_fresh earlier l kx :
  kx ∈ first_occurrences earlier l -> key_in kx.1 earlier = false.
Proof.
  revert earlier. induction l as [|ky r IH]; intros earlier; simpl.
  - by intros ?%elem_of_nil.
  - rewrite elem_of_app. intros [H|H].
    + destruct (key_in ky.1 earlier) eqn:E.
      * by apply elem_of_nil in H.
      * apply list_elem_of_singleton in H. by subst.
    + apply IH in H. rewrite key_in_app in H.
      by apply orb_false_iff in H as [? _].
Qed.

Lemma first_occurrences_distinct earlier l :
  keys_distinct ((first_occurrences earlier l).*1).
Proof.
  revert earlier. induction l as [|kx r IH]; intros earlier; simpl; [done|].
  destruct (key_in kx.1 earlier); simpl; [apply IH|].
  split; [|apply IH].
  apply key_in_false. intros k' Hk'.
  apply list_elem_of_fmap in Hk' as (ky & -> & Hky).
  apply first_occurrences_fresh in Hky.
  rewrite key_in_app in Hky. apply orb_false_iff in Hky as [_ Hky].
  simpl in Hky. rewrite orb_false_r in Hky. by rewrite key_eq_sym.
Qed.

(** Every key of the input survives, unless it was seen before. *)
Lemma first_occurrences_complete earlier l k :
  key_in k (l.*1) = true ->
  key_in k earlier = false ->
  key_in k ((first_occurrences earlier l).*1) = true.
Proof.
  revert earlier. induction l as [|kx r IH]; intros earlier; simpl; [done|].
  intros Hin Hfresh. rewrite fmap_app, key_in_app.
  destruct (key_eq k kx.1) eqn:E.
  - rewrite <- (key_in_proper _ _ _ E), Hfresh. simpl. by rewrite E.
  - simpl in Hin. apply orb_true_iff. right. apply IH; [done|].
    rewrite key_in_app, Hfresh. simpl. by rewrite E.
Qed.

End FirstOccurrences.

(** ** Facts about [dedupe_sources] *)

Lemma dedupe_loop_first_occurrences seen earlier srcs ks :
  Forall2 has_key srcs ks ->
  (forall k, key_in k seen = key_in k earlier) ->
  dedupe_loop seen srcs = Ok (first_occurrences earlier (zip ks srcs)).
Proof.
  intros H. revert seen earlier.
  induction H as [|s k srcs ks Hs _ IH]; intros seen earlier Hseen; [done|].
  simpl. rewrite Hs. simpl. rewrite Hseen.
  destruct (key_in k earlier) eqn:E.
  - apply IH. intros k'. rewrite key_in_app, Hseen. simpl.
    rewrite orb_false_r. destruct (key_eq k' k) eqn:E'; [|by rewrite orb_false_r].
    by rewrite (key_in_proper _ _ _ E'), E.
  - rewrite (IH (k :: seen) (earlier ++ [k])); [done|].
    intros k'. rewrite key_in_app. simpl. rewrite Hseen, orb_false_r.
    apply orb_comm.
Qed.

Lemma dedupe_keyed_list srcs ks :
  Forall2 has_key srcs ks ->
  dedupe_keyed (PList srcs) = Ok (first_occurrences [] (zip ks srcs)).
Proof.
  intros H. unfold dedupe_keyed, py_or.
  assert (py_iter (if py_truthy (PList srcs) then PList srcs else PList [])
          = Ok srcs) as ->.
  { by destruct srcs. }
  by apply (dedupe_loop_first_occurrences [] []).
Qed.

Lemma dedupe_keyed_falsy x : py_truthy x = false -> dedupe_keyed x = Ok [].
Proof. intros H. unfold dedupe_keyed, py_or. by rewrite H. Qed.

Lemma dedupe_keyed_reads x kept k s :
  dedupe_keyed x = Ok kept -> (k, s) ∈ kept -> has_key s k.
Proof.
  unfold dedupe_keyed. intros H. inv_bind H. clear Hget.
  generalize dependent (@nil key). revert kept.
  induction a as [|s' rest IH]; intros kept seen H Hin; simpl in H.
  - injection H as <-. by apply elem_of_nil in Hin.
  - inv_bind H. destruct (key_in a seen).
    + eauto.
    + inv_bind H. injection H as <-.
      apply elem_of_cons in Hin as [[= -> ->]|Hin]; eauto.
Qed.

(** C4. For every citation list, [dedupe_sources] returns the sources of
    the first occurrence of each [(field, chunk_id)] key, in input order:
    what is kept is a subsequence of the input, holds no key twice and
    holds every key of the input; two citations of one field with
    different chunk identifiers are both represented.  A null list gives
    the empty list. *)
Theorem dedupe_sources_first_occurrences (srcs : list pyval) (ks : list key) :
  Forall2 has_key srcs ks ->
  dedupe_sources PNone = Ok [] /\
  exists kept,
    dedupe_sources (PList srcs) = Ok (kept.*2) /\
    kept = first_occurrences [] (zip ks srcs) /\
    sublist (kept.*2) srcs /\
    keys_distinct (kept.*1) /\
    (forall k, k ∈ ks -> key_in k (kept.*1) = true) /\
    (forall f c1 c2,
        (f, c1) ∈ ks -> (f, c2) ∈ ks -> atom_eq c1 c2 = false ->
        exists k1 k2,
          k1 ∈ kept.*1 /\ k2 ∈ kept.*1 /\
          key_eq (f, c1) k1 = true /\ key_eq (f, c2) k2 = true /\
          key_eq k1 k2 = false).
Proof.
  intros H. split; [done|].
  pose proof (Forall2_length _ _ _ H) as Hlen.
  exists (first_occurrences [] (zip ks srcs)).
  assert (Hcomplete : forall k, k ∈ ks ->
            key_in k ((first_occurrences [] (zip ks srcs)).*1) = true).
  { intros k Hk. apply first_occurrences_complete; [|done].
    rewrite fst_zip by lia. apply key_in_true. exists k.
    by rewrite key_eq_refl. }
  split_and!.
  - unfold dedupe_sources. by rewrite (dedupe_keyed_list _ _ H).
  - done.
  - rewrite <- (snd_zip ks srcs) at 2 by lia.
    apply fmap_sublist, first_occurrences_sublist.
  - apply first_occurrences_distinct.
  - done.
  - intros f c1 c2 H1 H2 Hne.
    apply Hcomplete, key_in_true in H1 as (k1 & Hk1 & E1).
    apply Hcomplete, key_in_true in H2 as (k2 & Hk2 & E2).
    exists k1, k2. split_and!; try done.
    destruct (key_eq k1 k2) eqn:E; [|done].
    assert (key_eq (f, c1) (f, c2) = true) as E'.
    { eapply key_eq_trans; [exact E1|]. eapply key_eq_trans; [exact E|].
      by rewrite key_eq_sym. }
    unfold key_eq in E'. simpl in E'. by rewrite Hne, andb_false_r in E'.
Qed.

(** The order-preservation example of the specification: [A; B; A; C]
    gives [A; B; C]. *)
Lemma dedupe_sources_first_occurrences_witness :
  let A := PDict [(AStr "field", PStr "price"); (AStr "chunk_id", PStr "c1")] in
  let B := PDict [(AStr "field", PStr "price"); (AStr "chunk_id", PStr "c2")] in
  let C := PDict [(AStr "field", PStr "buyer")] in
  dedupe_sources (PList [A; B; A; C]) = Ok [A; B; C].
Proof.
  intros A B C.
  destruct (dedupe_sources_first_occurrences [A; B; A; C]
    [(AStr "price", AStr "c1"); (AStr "price", AStr "c2");
     (AStr "price", AStr "c1"); (AStr "buyer", ANone)])
    as (_ & kept & Hrun & -> & _).
  - repeat constructor.
  - exact Hrun.
Defined.

(** ** Facts about the merge *)

Section MergeFacts.

Variable M : gmap string (list string).

Lemma contract_source_reads n k : reads_as (contract_source M n k) k.
Proof. by destruct k. Qed.

Lemma installment_source_reads n k :
  reads_as (installment_source M n k) (k.1, ANone).
Proof. by destruct k. Qed.

Lemma already_in_sources_spec k sources visible :
  Forall2 reads_as sources visible ->
  already_in_sources k sources = Ok (key_in k visible).
Proof.
  induction 1 as [|s v sources visible [Hf Hc] _ IH]; [done|].
  simpl. rewrite Hf. simpl. rewrite Hc. simpl. rewrite IH.
  unfold key_eq. rewrite (atom_eq_sym v.1), (atom_eq_sym v.2).
  by destruct (atom_eq k.1 v.1), (atom_eq k.2 v.2).
Qed.

Lemma append_installment_sources_spec n ks sources visible :
  Forall2 reads_as sources visible ->
  append_installment_sources M n sources ks
  = Ok (sources ++ (installment_source M n <$> kept_installment visible ks)).
Proof.
  revert sources visible.
  induction ks as [|k ks IH]; intros sources visible H; simpl.
  - by rewrite app_nil_r.
  - rewrite (already_in_sources_spec _ _ _ H). simpl.
    destruct (key_in k visible); [by apply IH|].
    rewrite (IH _ (visible ++ [(k.1, ANone)])).
    + simpl. by rewrite <- app_assoc.
    + apply Forall2_app; [done|].
      constructor; [apply installment_source_reads | constructor].
Qed.

(** The sources of a merged unit: one per deduplicated contract
    citation, then one per kept installment citation. *)
Lemma merge_unit_sources B i cu mu :
  merge_unit M B i cu = Ok mu ->
  exists kA kB,
    deduped_citations cu = Ok kA /\
    counterpart_citations (B !! i) = Ok kB /\
    mu_sources mu
    = (contract_source M (i + 1) <$> kA)
        ++ (installment_source M (i + 1) <$> kept_installment kA kB).
Proof.
  unfold merge_unit. intros H. do 5 inv_bind H.
  apply bind_Ok in H as (kA & HkA & H).
  apply bind_Ok in H as (srcs & Hsrcs & H). injection H as <-. simpl.
  exists kA.
  assert (Hreads : Forall2 reads_as (contract_source M (i + 1) <$> kA) kA).
  { clear. induction kA; constructor; auto using contract_source_reads. }
  unfold add_installment_sources in Hsrcs.
  destruct (B !! i) as [iu|]; simpl.
  - apply bind_Ok in Hsrcs as (kB & HkB & Hsrcs). exists kB.
    rewrite (append_installment_sources_spec _ _ _ _ Hreads) in Hsrcs.
    by injection Hsrcs as <-.
  - exists []. injection Hsrcs as <-. simpl. by rewrite app_nil_r.
Qed.

(** The unit and confidence maps of a merged unit. *)
Lemma merge_unit_data B i cu mu :
  merge_unit M B i cu = Ok mu ->
  exists unit confidence,
    (x <- py_get cu "unit" (PDict []) ;; py_copy x) = Ok unit /\
    (x <- py_get cu "confidence" (PDict []) ;; py_copy x) = Ok confidence /\
    add_installment_data (B !! i) unit confidence
    = Ok (mu_unit mu, mu_confidence mu).
Proof.
  unfold merge_unit. intros H.
  apply bind_Ok in H as (u0 & Hu0 & H). apply bind_Ok in H as (u & Hu & H).
  apply bind_Ok in H as (c0 & Hc0 & H). apply bind_Ok in H as (c & Hc & H).
  apply bind_Ok in H as ([u' c'] & Hd & H).
  do 2 inv_bind H. injection H as <-. simpl.
  exists u, c. rewrite Hu0, Hc0. simpl. by rewrite Hu, Hc.
Qed.

Lemma merge_from_length B i A out :
  merge_from M B i A = Ok out -> length out = length A.
Proof.
  revert i out. induction A as [|cu A IH]; intros i out H; simpl in H.
  - by injection H as <-.
  - do 2 inv_bind H. injection H as <-. simpl. f_equal. eauto.
Qed.

Lemma merge_from_lookup B i A out j mu :
  merge_from M B i A = Ok out ->
  out !! j = Some mu ->
  exists cu, A !! j = Some cu /\ merge_unit M B (i + j) cu = Ok mu.
Proof.
  revert i j out. induction A as [|cu A IH]; intros i j out H Hj; simpl in H.
  - injection H as <-. by rewrite lookup_nil in Hj.
  - apply bind_Ok in H as (mu' & Hmu & H).
    apply bind_Ok in H as (out' & Hout & H). injection H as <-.
    destruct j as [|j]; simpl in *.
    + injection Hj as <-. exists cu. by rewrite Nat.add_0_r.
    + destruct (IH _ _ _ Hout Hj) as (cu' & ? & ?). exists cu'.
      by rewrite <- Nat.add_succ_comm.
Qed.

Lemma merge_results_lookup A B out i mu :
  merge_results_with_cutouts M A B = Ok out ->
  out !! i = Some mu ->
  exists cu, A !! i = Some cu /\ merge_unit M B i cu = Ok mu.
Proof. apply (merge_from_lookup B 0). Qed.

End MergeFacts.

(** ** The claims about the length of the result *)

(** C2. The merged list has as many units as the contract list, whatever
    the length of the installment list. *)
Theorem merged_length_is_contract_length
    (M : gmap string (list string)) (A B : list pyval) (out : list merged_unit) :
  merge_results_with_cutouts M A B = Ok out ->
  length out = length A.
Proof. intros Hrun. by eapply merge_from_length. Qed.

(** One contract unit against three installment units. *)
Lemma merged_length_is_contract_length_witness :
  exists out,
    merge_results_with_cutouts ∅ [PDict []] [PDict []; PDict []; PDict []]
    = Ok out /\ length out = 1.
Proof.
  eexists. split; [reflexivity|].
  apply (merged_length_is_contract_length
           ∅ [PDict []] [PDict []; PDict []; PDict []]).
  reflexivity.
Defined.

(** C3. The merge walks the contract list only: with one contract unit
    and two installment units the result has one unit, not
    [max 1 2 = 2]; the second installment unit, with its plans, is not in
    the output. *)
Theorem installment_units_beyond_contract_dropped :
  let A := [PDict [(AStr "unit", PDict [(AStr "buyerName", PStr "Ana")])]] in
  let B := [PDict [];
            PDict [(AStr "unit",
                    PDict [(AStr "installmentPlans", PList [PStr "plan"])])]] in
  merge_results_with_cutouts ∅ A B
  = Ok [MergedUnit (PDict [(AStr "buyerName", PStr "Ana")]) [] (PDict [])]
  /\ length A `max` length B = 2.
Proof. split; reflexivity. Qed.

(** ** The claims about the emitted sources *)

Lemma no_artifact_uris M n f : no_artifact M n f -> s3_uris M n f = [].
Proof. unfold s3_uris. by intros [-> | ->]. Qed.

Lemma kept_installment_sublist visible ks :
  sublist (kept_installment visible ks) ks.
Proof.
  revert visible. induction ks as [|k ks IH]; intros visible; simpl.
  - constructor.
  - destruct (key_in k visible).
    + apply sublist_cons, IH.
    + apply sublist_skip, IH.
Qed.

Lemma Forall2_fmap_self {X Y} (P : X -> Y -> Prop) (f : X -> Y) (l : list X) :
  (forall x, P x (f x)) -> Forall2 P l (f <$> l).
Proof. intros H. induction l; constructor; auto. Qed.

(** C1. In a merged unit the sources come in two runs: one per
    deduplicated contract citation, then one per appended installment
    citation.  When the artifact map has no locator for the field, a
    contract citation whose chunk identifier is "calculated" gets a null
    [chunk_file_key], and an installment citation gets its chunk
    identifier as [chunk_file_key], "calculated" included. *)
Theorem calculated_handling_is_asymmetric
    (M : gmap string (list string)) (A B : list pyval)
    (out : list merged_unit) (i : nat) (mu : merged_unit) :
  merge_results_with_cutouts M A B = Ok out ->
  out !! i = Some mu ->
  exists cu kA kB kB' sA sB,
    A !! i = Some cu /\
    deduped_citations cu = Ok kA /\
    counterpart_citations (B !! i) = Ok kB /\
    sublist kB' kB /\
    mu_sources mu = sA ++ sB /\
    Forall2 (fun k s =>
               source_get s "field" = Some (Atom k.1) /\
               source_get s "chunk_id" = Some (Atom k.2) /\
               (no_artifact M (i + 1) k.1 ->
                k.2 = AStr "calculated" ->
                source_get s "chunk_file_key" = Some PNone)) kA sA /\
    Forall2 (fun k s =>
               source_get s "field" = Some (Atom k.1) /\
               (no_artifact M (i + 1) k.1 ->
                source_get s "chunk_file_key" = Some (Atom k.2))) kB' sB.
Proof.
  intros Hrun Hi.
  destruct (merge_results_lookup _ _ _ _ _ _ Hrun Hi) as (cu & Hcu & Hmu).
  destruct (merge_unit_sources _ _ _ _ _ Hmu) as (kA & kB & HkA & HkB & ->).
  exists cu, kA, kB, (kept_installment kA kB). do 2 eexists.
  split_and!; try done.
  - apply kept_installment_sublist.
  - apply Forall2_fmap_self. intros [f c]. simpl. split_and!; try done.
    intros Hno ->. by rewrite (no_artifact_uris _ _ _ Hno).
  - apply Forall2_fmap_self. intros [f c]. simpl. split; [done|].
    intros Hno. by rewrite (no_artifact_uris _ _ _ Hno).
Qed.

Lemma calculated_handling_is_asymmetric_witness :
  exists out mu,
    merge_results_with_cutouts sample_artifacts sample_contract
      sample_installment = Ok out /\
    out !! 0 = Some mu /\
    mu_sources mu !! 1
    = Some (PDict [(AStr "field", PStr "total");
                   (AStr "chunk_id", PStr "calculated");
                   (AStr "chunk_file_key", PNone)]) /\
    mu_sources mu !! 2
    = Some (PDict [(AStr "field", PStr "fee");
                   (AStr "chunk_file_key", PStr "calculated")]).
Proof.
  eexists _, _. split; [reflexivity|]. split; [reflexivity|].
  destruct (calculated_handling_is_asymmetric sample_artifacts sample_contract
              sample_installment _ 0 _ eq_refl eq_refl)
    as (cu & kA & kB & kB' & sA & sB & _).
  split; reflexivity.
Defined.

(** C8. Every source of merged unit [i], from either pass, names its
    field, and when the artifact map holds a non-empty locator list
    under ["unit{i+1}_{field}"] its [chunk_file_key] is the first locator
    of that list, whatever follows it. *)
Theorem artifact_first_wins
    (M : gmap string (list string)) (A B : list pyval)
    (out : list merged_unit) (i : nat) (mu : merged_unit) (s : pyval) :
  merge_results_with_cutouts M A B = Ok out ->
  out !! i = Some mu ->
  s ∈ mu_sources mu ->
  exists f,
    source_get s "field" = Some (Atom f) /\
    forall loc rest,
      M !! field_key (i + 1) f = Some (loc :: rest) ->
      source_get s "chunk_file_key" = Some (PStr loc).
Proof.
  intros Hrun Hi Hs.
  destruct (merge_results_lookup _ _ _ _ _ _ Hrun Hi) as (cu & Hcu & Hmu).
  destruct (merge_unit_sources _ _ _ _ _ Hmu) as (kA & kB & _ & _ & Heq).
  rewrite Heq in Hs.
  apply elem_of_app in Hs as [Hs|Hs];
    apply list_elem_of_fmap in Hs as ([f c] & -> & _);
    exists f; (split; [done|]); intros loc rest Hloc; simpl;
    unfold s3_uris; by rewrite Hloc.
Qed.

Lemma artifact_first_wins_witness :
  let s := PDict [(AStr "field", PStr "buyerName");
                  (AStr "chunk_file_key", PStr "loc1")] in
  exists out mu,
    merge_results_with_cutouts sample_artifacts sample_contract
      sample_installment = Ok out /\
    out !! 0 = Some mu /\
    mu_sources mu !! 3 = Some s /\
    source_get s "chunk_file_key" = Some (PStr "loc1").
Proof.
  intros s. eexists _, _. split; [reflexivity|]. split; [reflexivity|].
  split; [reflexivity|].
  destruct (artifact_first_wins sample_artifacts sample_contract
              sample_installment _ 0 _ s eq_refl eq_refl)
    as (f & Hf & Hloc).
  - apply list_elem_of_lookup. by exists 3.
  - injection Hf as <-. exact (Hloc "loc1" ["loc2"] eq_refl).
Defined.

(** C10. In a merged unit the sources contributed by the contract
    citations carry the keys [field], [chunk_id] and [chunk_file_key];
    those appended from the installment citations carry [field] and
    [chunk_file_key] only. *)
Theorem source_shape_differs_by_pass
    (M : gmap string (list string)) (A B : list pyval)
    (out : list merged_unit) (i : nat) (mu : merged_unit) :
  merge_results_with_cutouts M A B = Ok out ->
  out !! i = Some mu ->
  exists cu kA kB kB' sA sB,
    A !! i = Some cu /\
    deduped_citations cu = Ok kA /\
    counterpart_citations (B !! i) = Ok kB /\
    sublist kB' kB /\
    mu_sources mu = sA ++ sB /\
    length sA = length kA /\
    length sB = length kB' /\
    Forall (fun s => source_fields s
                     = [AStr "field"; AStr "chunk_id"; AStr "chunk_file_key"])
           sA /\
    Forall (fun s => source_fields s = [AStr "field"; AStr "chunk_file_key"]
                     /\ source_get s "chunk_id" = None)
           sB.
Proof.
  intros Hrun Hi.
  destruct (merge_results_lookup _ _ _ _ _ _ Hrun Hi) as (cu & Hcu & Hmu).
  destruct (merge_unit_sources _ _ _ _ _ Hmu) as (kA & kB & HkA & HkB & ->).
  exists cu, kA, kB, (kept_installment kA kB). do 2 eexists.
  split_and!; try done.
  - apply kept_installment_sublist.
  - by rewrite length_fmap.
  - by rewrite length_fmap.
  - apply Forall_fmap, Forall_forall. by intros [f c] _.
  - apply Forall_fmap, Forall_forall. by intros [f c] _.
Qed.

Lemma source_shape_differs_by_pass_witness :
  exists out mu,
    merge_results_with_cutouts sample_artifacts sample_contract
      sample_installment = Ok out /\
    out !! 0 = Some mu /\
    source_fields <$> mu_sources mu
    = [[AStr "field"; AStr "chunk_id"; AStr "chunk_file_key"];
       [AStr "field"; AStr "chunk_id"; AStr "chunk_file_key"];
       [AStr "field"; AStr "chunk_file_key"];
       [AStr "field"; AStr "chunk_file_key"]].
Proof.
  eexists _, _. split; [reflexivity|]. split; [reflexivity|].
  destruct (source_shape_differs_by_pass sample_artifacts sample_contract
              sample_installment _ 0 _ eq_refl eq_refl)
    as (cu & kA & kB & kB' & sA & sB & _).
  reflexivity.
Defined.

(** ** The claim about the number of citations *)

(** As long as every installment citation carries a chunk identifier,
    the appended ones are those whose key is no contract key. *)
Lemma kept_installment_filter kA extra kB :
  Forall (fun v => v.2 = ANone) extra ->
  Forall (fun k => atom_eq k.2 ANone = false) kB ->
  kept_installment (kA ++ extra) kB
  = List.filter (fun k => negb (key_in k kA)) kB.
Proof.
  intros Hextra HkB. revert extra Hextra.
  induction HkB as [|k kB Hk _ IH]; intros extra Hextra; simpl; [done|].
  assert (key_in k extra = false) as Hfresh.
  { apply key_in_false. intros v Hv.
    rewrite Forall_forall in Hextra. unfold key_eq.
    by rewrite (Hextra v Hv), Hk, andb_false_r. }
  rewrite key_in_app, Hfresh, orb_false_r.
  destruct (key_in k kA); simpl; [by apply IH|].
  f_equal. rewrite <- app_assoc. apply IH.
  apply Forall_app. split; [done|]. by constructor.
Qed.

(** The count of the specification holds for the units whose installment
    citations all carry a chunk identifier. *)
Lemma citation_count_when_chunks_present
    (M : gmap string (list string)) (B : list pyval) (i : nat)
    (cu : pyval) (mu : merged_unit) (kA kB : list key) :
  merge_unit M B i cu = Ok mu ->
  deduped_citations cu = Ok kA ->
  counterpart_citations (B !! i) = Ok kB ->
  Forall (fun k => atom_eq k.2 ANone = false) kB ->
  length (mu_sources mu) + key_overlaps kA kB = length kA + length kB.
Proof.
  intros Hmu HkA HkB Hchunks.
  destruct (merge_unit_sources _ _ _ _ _ Hmu) as (kA' & kB' & HkA' & HkB' & ->).
  rewrite HkA in HkA'. rewrite HkB in HkB'.
  injection HkA' as <-. injection HkB' as <-.
  rewrite length_app, !length_fmap. unfold key_overlaps.
  pose proof (kept_installment_filter kA [] kB) as Hkept.
  rewrite app_nil_r in Hkept. rewrite Hkept by (done || constructor).
  pose proof (filter_length (fun k => key_in k kA) kB). lia.
Qed.

(** C5. A unit without contract citations whose installment pass cites
    the field [dueDate] twice, once with chunk [c9] and once without a
    chunk identifier: the two deduplicated installment citations have
    different keys and overlap no contract citation, yet the merged unit
    holds one source.  The appended source carries no [chunk_id], so the
    test of line 277 reads [None] back from it and takes the second
    citation for a repetition. *)
Theorem installment_citation_without_chunk_lost :
  let cu := PDict [] in
  let iu :=
    PDict [(AStr "sources",
            PList [PDict [(AStr "field", PStr "dueDate");
                          (AStr "chunk_id", PStr "c9")];
                   PDict [(AStr "field", PStr "dueDate")]])] in
  let kB := [(AStr "dueDate", AStr "c9"); (AStr "dueDate", ANone)] in
  deduped_citations cu = Ok [] /\
  deduped_citations iu = Ok kB /\
  keys_distinct kB /\
  key_overlaps [] kB = 0 /\
  merge_results_with_cutouts ∅ [cu] [iu]
  = Ok [MergedUnit (PDict [])
          [PDict [(AStr "field", PStr "dueDate");
                  (AStr "chunk_file_key", PStr "c9")]]
          (PDict [])].
Proof. repeat split; reflexivity. Qed.

(** ** The claims about the field and confidence maps *)

Lemma atom_eq_proper k1 k2 k :
  atom_eq k1 k2 = true -> atom_eq k1 k = atom_eq k2 k.
Proof.
  intros H. destruct (atom_eq k2 k) eqn:E.
  - eapply atom_eq_trans; eauto.
  - destruct (atom_eq k1 k) eqn:E'; [|done].
    rewrite <- E. symmetry. eapply atom_eq_trans; [|exact E'].
    by rewrite atom_eq_sym.
Qed.

Lemma dict_get_proper k1 k2 d :
  atom_eq k1 k2 = true -> dict_get k1 d = dict_get k2 d.
Proof.
  intros H. induction d as [|[k v] d IH]; simpl; [done|].
  by rewrite (atom_eq_proper _ _ k H), IH.
Qed.

Lemma dict_get_set k k0 v d :
  dict_get k (dict_set k0 v d)
  = if atom_eq k k0 then Some v else dict_get k d.
Proof.
  induction d as [|[k' v'] d IH]; simpl; [done|].
  destruct (atom_eq k0 k') eqn:E0; simpl.
  - rewrite (atom_eq_sym k k0), (atom_eq_proper _ _ k E0), (atom_eq_sym k' k).
    by destruct (atom_eq k k').
  - rewrite IH. destruct (atom_eq k k') eqn:E, (atom_eq k k0) eqn:E'; try done.
    rewrite atom_eq_sym in E'.
    by rewrite (atom_eq_trans _ _ _ E' E) in E0.
Qed.

Lemma dict_get_update k d other :
  dict_wf other ->
  dict_get k (dict_update d other)
  = match dict_get k other with
    | Some v => Some v
    | None => dict_get k d
    end.
Proof.
  unfold dict_update. revert d.
  induction other as [|[k0 v0] other IH]; intros d Hwf; simpl; [done|].
  destruct Hwf as [Hfresh Hwf]. rewrite (IH _ Hwf), dict_get_set.
  destruct (atom_eq k k0) eqn:E; [|done].
  by rewrite (dict_get_proper _ _ _ E), Hfresh.
Qed.

(** C6. When the counterpart unit carries installment plans (a non-empty
    collection), the merged field map holds exactly those plans under
    [installmentPlans] and the contract value under every other key; when
    there is no counterpart unit, or its plans are empty, the merged
    field map is the contract field map. *)
Theorem installment_plans_overwrite
    (M : gmap string (list string)) (A B : list pyval)
    (out : list merged_unit) (i : nat) (mu : merged_unit) :
  merge_results_with_cutouts M A B = Ok out ->
  out !! i = Some mu ->
  exists cu fields,
    A !! i = Some cu /\
    py_get cu "unit" (PDict []) = Ok fields /\
    (B !! i = None -> mu_unit mu = fields) /\
    (forall iu, B !! i = Some iu ->
       exists ifields plans,
         py_get iu "unit" (PDict []) = Ok ifields /\
         py_get ifields "installmentPlans" (PList []) = Ok plans /\
         (py_truthy plans = false -> mu_unit mu = fields) /\
         (py_truthy plans = true ->
            exists dA d,
              fields = PDict dA /\
              mu_unit mu = PDict d /\
              dict_get (AStr "installmentPlans") d = Some plans /\
              forall k, atom_eq k (AStr "installmentPlans") = false ->
                        dict_get k d = dict_get k dA)).
Proof.
  intros Hrun Hi.
  destruct (merge_results_lookup _ _ _ _ _ _ Hrun Hi) as (cu & Hcu & Hmu).
  destruct (merge_unit_data _ _ _ _ _ Hmu) as (unit & conf & Hu & _ & Hdata).
  apply bind_Ok in Hu as (fields & Hfields & Hcopy).
  assert (unit = fields) as ->.
  { destruct fields; simpl in Hcopy; congruence. }
  exists cu, fields. split_and!; try done.
  - intros HB. rewrite HB in Hdata. simpl in Hdata. congruence.
  - intros iu HB. rewrite HB in Hdata. simpl in Hdata.
    apply bind_Ok in Hdata as (ifields & Hif & Hdata).
    apply bind_Ok in Hdata as (plans & Hplans & Hdata).
    apply bind_Ok in Hdata as (unit' & Hset & Hdata).
    do 2 inv_bind Hdata. injection Hdata as <- _.
    exists ifields, plans. split_and!; try done.
    + intros Hfalsy. rewrite Hfalsy in Hset. congruence.
    + intros Htruthy. rewrite Htruthy in Hset.
      destruct fields as [|l|dA]; simpl in Hset; try discriminate.
      injection Hset as Hset. exists dA. eexists. split_and!; [done|by symmetry|..].
      * by rewrite dict_get_set.
      * intros k Hk. by rewrite dict_get_set, Hk.
Qed.

Lemma installment_plans_overwrite_witness :
  exists out mu,
    merge_results_with_cutouts sample_artifacts sample_contract
      sample_installment = Ok out /\
    out !! 0 = Some mu /\
    mu_unit mu
    = PDict [(AStr "buyerName", PStr "Ana");
             (AStr "installmentPlans", PList [PStr "Y"; PStr "Z"])].
Proof.
  eexists _, _. split; [reflexivity|]. split; [reflexivity|].
  destruct (installment_plans_overwrite sample_artifacts sample_contract
              sample_installment _ 0 _ eq_refl eq_refl)
    as (cu & fields & _).
  reflexivity.
Defined.

(** C7. When the counterpart unit exists, the merged confidence map
    gives each key the counterpart's value if the counterpart has the
    key and the contract's value otherwise; its keys are those of either
    map. *)
Theorem confidence_precedence
    (M : gmap string (list string)) (A B : list pyval)
    (out : list merged_unit) (i : nat) (mu : merged_unit)
    (iu : pyval) (cB : pydict) :
  merge_results_with_cutouts M A B = Ok out ->
  out !! i = Some mu ->
  B !! i = Some iu ->
  py_get iu "confidence" (PDict []) = Ok (PDict cB) ->
  dict_wf cB ->
  exists cu cA c,
    A !! i = Some cu /\
    py_get cu "confidence" (PDict []) = Ok (PDict cA) /\
    mu_confidence mu = PDict c /\
    (forall k, dict_get k c
               = match dict_get k cB with
                 | Some v => Some v
                 | None => dict_get k cA
                 end) /\
    (forall k, is_Some (dict_get k c)
               <-> is_Some (dict_get k cA) \/ is_Some (dict_get k cB)).
Proof.
  intros Hrun Hi HB HcB Hwf.
  destruct (merge_results_lookup _ _ _ _ _ _ Hrun Hi) as (cu & Hcu & Hmu).
  destruct (merge_unit_data _ _ _ _ _ Hmu) as (unit & conf & _ & Hc & Hdata).
  apply bind_Ok in Hc as (conf0 & Hconf0 & Hcopy).
  assert (conf = conf0) as ->.
  { destruct conf0; simpl in Hcopy; congruence. }
  rewrite HB in Hdata. simpl in Hdata.
  do 3 inv_bind Hdata. rewrite HcB in Hdata. simpl in Hdata.
  apply bind_Ok in Hdata as (conf' & Hupd & Hdata). injection Hdata as _ <-.
  destruct conf0 as [|l|cA]; simpl in Hupd; try discriminate.
  injection Hupd as Hupd.
  assert (Hlookup : forall k, dict_get k (dict_update cA cB)
                              = match dict_get k cB with
                                | Some v => Some v
                                | None => dict_get k cA
                                end).
  { intros k. by apply dict_get_update. }
  exists cu, cA, (dict_update cA cB). split_and!; try done.
  intros k. rewrite Hlookup.
  destruct (dict_get k cB); split; intros; eauto. by destruct H.
Qed.

(** The example of the specification: [{f1: high, f2: low}] merged with
    [{f1: medium, f3: high}]. *)
Lemma confidence_precedence_witness :
  exists out mu,
    merge_results_with_cutouts sample_artifacts sample_contract
      sample_installment = Ok out /\
    out !! 0 = Some mu /\
    mu_confidence mu
    = PDict [(AStr "f1", PStr "medium"); (AStr "f2", PStr "low");
             (AStr "f3", PStr "high")].
Proof.
  eexists _, _. split; [reflexivity|]. split; [reflexivity|].
  destruct (confidence_precedence sample_artifacts sample_contract
              sample_installment _ 0 _ _
              [(AStr "f1", PStr "medium"); (AStr "f3", PStr "high")]
              eq_refl eq_refl eq_refl eq_refl)
    as (cu & cA & c & _).
  - repeat split.
  - reflexivity.
Defined.

(** ** The claim about exceptions *)

Lemma mapping_or_absent_default o :
  mapping_or_absent o -> exists d, default (PDict []) o = PDict d.
Proof. destruct o as [[| |d]|]; simpl; intros H; by eauto. Qed.

Lemma citations_have_keys srcs :
  Forall is_citation srcs -> exists ks, Forall2 has_key srcs ks.
Proof.
  induction 1 as [|s srcs [k Hk] _ [ks IH]].
  - exists []. constructor.
  - exists (k :: ks). by constructor.
Qed.

Lemma deduped_citations_total u :
  well_shaped u -> exists ks, deduped_citations u = Ok ks.
Proof.
  destruct u as [| |d]; simpl; try done. intros (_ & _ & H).
  unfold deduped_citations. simpl.
  destruct (dict_get (AStr "sources") d) as [x|]; simpl in *.
  - destruct x as [a|srcs|e].
    + rewrite (dedupe_keyed_falsy _ H). simpl. eauto.
    + destruct (citations_have_keys _ H) as [ks Hks].
      rewrite (dedupe_keyed_list _ _ Hks). simpl. eauto.
    + rewrite (dedupe_keyed_falsy _ H). simpl. eauto.
  - by eexists.
Qed.

Lemma add_installment_data_total counterpart dU dC :
  (forall iu, counterpart = Some iu -> well_shaped iu) ->
  exists r, add_installment_data counterpart (PDict dU) (PDict dC) = Ok r.
Proof.
  intros H. destruct counterpart as [iu|]; simpl; [|eauto].
  specialize (H iu eq_refl). destruct iu as [| |d]; simpl in *; try done.
  destruct H as (Hu & Hc & _).
  destruct (mapping_or_absent_default _ Hu) as [du ->].
  destruct (mapping_or_absent_default _ Hc) as [dc ->]. simpl.
  destruct (py_truthy _); simpl; eauto.
Qed.

Section Totality.

Variable M : gmap string (list string).

Lemma merge_unit_total B i cu :
  well_shaped cu ->
  Forall well_shaped B ->
  exists mu, merge_unit M B i cu = Ok mu.
Proof.
  intros Hcu HB.
  assert (HBi : forall iu, B !! i = Some iu -> well_shaped iu).
  { intros iu Hiu. rewrite Forall_forall in HB.
    eapply HB, list_elem_of_lookup_2, Hiu. }
  destruct (deduped_citations_total _ Hcu) as [kA HkA].
  unfold merge_unit. rewrite HkA.
  destruct cu as [| |d]; simpl in *; try done.
  destruct Hcu as (Hu & Hc & _).
  destruct (mapping_or_absent_default _ Hu) as [dU ->].
  destruct (mapping_or_absent_default _ Hc) as [dC ->]. simpl.
  destruct (add_installment_data_total _ dU dC HBi) as [r ->]. simpl.
  unfold add_installment_sources.
  destruct (B !! i) as [iu|]; simpl; [|eauto].
  destruct (deduped_citations_total iu (HBi iu eq_refl)) as [kB ->]. simpl.
  rewrite (append_installment_sources_spec M _ _ _ kA).
  - simpl. eauto.
  - apply Forall2_fmap_l, Forall_Forall2_diag, Forall_forall.
    intros k _. apply contract_source_reads.
Qed.

Lemma merge_from_total B i A :
  Forall well_shaped A ->
  Forall well_shaped B ->
  exists out, merge_from M B i A = Ok out.
Proof.
  intros HA HB. revert i. induction HA as [|cu A Hcu _ IH]; intros i; simpl.
  - eauto.
  - destruct (merge_unit_total B i cu Hcu HB) as [mu ->].
    destruct (IH (S i)) as [out ->]. simpl. eauto.
Qed.

End Totality.

(** C9 as stated does not hold: a unit record may be map-like and still
    carry a null [unit] entry, on which [.copy()] raises. *)
Lemma map_like_input_can_raise :
  ~ (forall (M : gmap string (list string)) (A B : list pyval),
        Forall map_like_unit A -> Forall map_like_unit B ->
        exists out, merge_results_with_cutouts M A B = Ok out).
Proof.
  intros H.
  destruct (H ∅ [PDict [(AStr "unit", PNone)]] []) as [out Hout].
  - constructor; [|constructor]. eexists. split; [reflexivity|].
    intros srcs. discriminate.
  - constructor.
  - discriminate.
Qed.

(** C9. On unit records of the delivered shape the merge raises nothing
    and returns one unit per contract unit: a missing counterpart unit,
    an artifact key that is absent or maps to the empty list, a missing,
    null or "calculated" chunk identifier and confidence maps over
    different keys are all absorbed. *)
Theorem merge_total_on_well_shaped
    (M : gmap string (list string)) (A B : list pyval) :
  Forall well_shaped A ->
  Forall well_shaped B ->
  exists out,
    merge_results_with_cutouts M A B = Ok out /\ length out = length A.
Proof.
  intros HA HB. destruct (merge_from_total M B 0 A HA HB) as [out Hout].
  exists out. split; [done|]. by eapply merge_from_length.
Qed.

Lemma merge_total_on_well_shaped_witness :
  exists out,
    merge_results_with_cutouts sample_artifacts sample_contract
      sample_installment = Ok out /\ length out = 1.
Proof.
  apply (merge_total_on_well_shaped sample_artifacts sample_contract
           sample_installment).
  - repeat constructor; eexists; reflexivity.
  - repeat constructor; eexists; reflexivity.
Defined.


(** ** Further facts about [dedupe_sources] *)

Lemma has_key_functional s k1 k2 : has_key s k1 -> has_key s k2 -> k1 = k2.
Proof. unfold has_key. congruence. Qed.

Lemma Forall2_has_key_functional srcs ks1 ks2 :
  Forall2 has_key srcs ks1 -> Forall2 has_key srcs ks2 -> ks1 = ks2.
Proof.
  intros H. revert ks2. induction H as [|s k srcs ks Hs _ IH]; intros ks2 H2.
  - by inversion H2.
  - inversion H2 as [|? k' ? ks' Hs' H2']; subst.
    f_equal; [by eapply has_key_functional | by apply IH].
Qed.

(** A run of the loop that returns has read a key off every source. *)
Lemma dedupe_loop_keys seen srcs kept :
  dedupe_loop seen srcs = Ok kept -> exists ks, Forall2 has_key srcs ks.
Proof.
  revert seen kept. induction srcs as [|s srcs IH]; intros seen kept H.
  - exists []. constructor.
  - simpl in H. apply bind_Ok in H as (k & Hk & H).
    destruct (key_in k seen).
    + destruct (IH _ _ H) as [ks Hks]. exists (k :: ks). by constructor.
    + apply bind_Ok in H as (r & Hr & _).
      destruct (IH _ _ Hr) as [ks Hks]. exists (k :: ks). by constructor.
Qed.

Lemma dedupe_keyed_inv x kept :
  dedupe_keyed x = Ok kept ->
  exists srcs ks,
    py_iter (py_or x (PList [])) = Ok srcs /\
    Forall2 has_key srcs ks /\
    kept = first_occurrences [] (zip ks srcs).
Proof.
  unfold dedupe_keyed. intros H. apply bind_Ok in H as (srcs & Hsrcs & H).
  destruct (dedupe_loop_keys _ _ _ H) as [ks Hks].
  exists srcs, ks. split_and!; try done.
  rewrite (dedupe_loop_first_occurrences [] [] _ _ Hks) in H by done.
  by injection H.
Qed.

Lemma first_occurrences_fixed {A} (earlier : list key) (l : list (key * A)) :
  keys_distinct (l.*1) ->
  (forall k, k ∈ l.*1 -> key_in k earlier = false) ->
  first_occurrences earlier l = l.
Proof.
  revert earlier. induction l as [|[k x] l IH]; intros earlier Hd Hfresh; [done|].
  simpl in *. destruct Hd as [Hk Hd].
  rewrite (Hfresh k) by apply list_elem_of_here. simpl. f_equal.
  apply IH; [done|]. intros k' Hk'. rewrite key_in_app, Hfresh by by right.
  simpl. rewrite orb_false_r, key_eq_sym.
  rewrite key_in_false in Hk. by apply Hk.
Qed.

Lemma Forall2_has_key_kept (kept : list (key * pyval)) :
  (forall k s, (k, s) ∈ kept -> has_key s k) ->
  Forall2 has_key (kept.*2) (kept.*1).
Proof.
  induction kept as [|[k s] kept IH]; intros H; simpl; constructor.
  - apply H, list_elem_of_here.
  - apply IH. intros k' s' Hin. apply H. by right.
Qed.

(** X1. Deduplicating is idempotent: whatever [dedupe_sources] returns,
    it returns unchanged when run on it again. *)
Theorem dedupe_sources_idempotent (x : pyval) (out : list pyval) :
  dedupe_sources x = Ok out ->
  dedupe_sources (PList out) = Ok out.
Proof.
  unfold dedupe_sources at 1. intros H.
  apply bind_Ok in H as (kept & Hkept & H). injection H as <-.
  pose proof (Forall2_has_key_kept kept
                (fun k s => dedupe_keyed_reads x kept k s Hkept)) as Hkeys.
  destruct (dedupe_keyed_inv _ _ Hkept) as (srcs & ks & _ & _ & Heq).
  unfold dedupe_sources. rewrite (dedupe_keyed_list _ _ Hkeys). simpl.
  rewrite zip_fst_snd, first_occurrences_fixed; [done| |done].
  rewrite Heq. apply first_occurrences_distinct.
Qed.

Lemma dedupe_sources_idempotent_witness :
  let A := PDict [(AStr "field", PStr "price"); (AStr "chunk_id", PStr "c1")] in
  let B := PDict [(AStr "field", PStr "price")] in
  dedupe_sources (PList [A; B; A; B]) = Ok [A; B] /\
  dedupe_sources (PList [A; B]) = Ok [A; B].
Proof.
  intros A B. split; [reflexivity|].
  exact (dedupe_sources_idempotent (PList [A; B; A; B]) [A; B] eq_refl).
Defined.

Lemma dedupe_loop_raises seen pre s post e :
  Forall is_citation pre ->
  source_key s = Raise e ->
  dedupe_loop seen (pre ++ s :: post) = Raise e.
Proof.
  intros Hpre Hs. revert seen.
  induction Hpre as [|c pre [k Hk] _ IH]; intros seen; simpl.
  - by rewrite Hs.
  - rewrite Hk. simpl. destruct (key_in k seen); [apply IH|].
    by rewrite IH.
Qed.

(** X2. The first entry of a citation list that is no citation stops
    the deduplication: an entry that is not a dict raises
    [AttributeError], a dict whose field or chunk identifier is a list or
    a dict raises [TypeError] (unhashable). *)
Theorem dedupe_sources_rejects_malformed
    (pre post : list pyval) (s : pyval) :
  Forall is_citation pre ->
  ((forall d, s <> PDict d) ->
   dedupe_sources (PList (pre ++ s :: post)) = Raise AttributeError) /\
  (forall d, s = PDict d ->
     (forall a, dict_get (AStr "field") d <> Some (Atom a)) ->
     dict_get (AStr "field") d <> None ->
     dedupe_sources (PList (pre ++ s :: post)) = Raise TypeError) /\
  (forall d f, s = PDict d ->
     dict_get (AStr "field") d = Some (Atom f) ->
     (forall a, dict_get (AStr "chunk_id") d <> Some (Atom a)) ->
     dict_get (AStr "chunk_id") d <> None ->
     dedupe_sources (PList (pre ++ s :: post)) = Raise TypeError).
Proof.
  intros Hpre.
  assert (Hrun : forall e, source_key s = Raise e ->
            dedupe_sources (PList (pre ++ s :: post)) = Raise e).
  { intros e He. unfold dedupe_sources, dedupe_keyed, py_or.
    assert (py_iter (if py_truthy (PList (pre ++ s :: post))
                     then PList (pre ++ s :: post) else PList [])
            = Ok (pre ++ s :: post)) as ->.
    { by destruct pre. }
    simpl. by rewrite (dedupe_loop_raises _ _ _ _ _ Hpre He). }
  split_and!.
  - intros Hs. apply Hrun. destruct s as [| |d]; try done. by destruct (Hs d).
  - intros d -> Hf Hsome. apply Hrun. unfold source_key. simpl.
    destruct (dict_get (AStr "field") d) as [[a| |]|]; simpl; try done.
    by destruct (Hf a).
  - intros d f -> Hf Hc Hsome. apply Hrun. unfold source_key. simpl.
    rewrite Hf. simpl.
    destruct (dict_get (AStr "chunk_id") d) as [[a| |]|]; simpl; try done.
    by destruct (Hc a).
Qed.

Lemma dedupe_sources_rejects_malformed_witness :
  let good := PDict [(AStr "field", PStr "price")] in
  dedupe_sources (PList [good; PStr "price"]) = Raise AttributeError /\
  dedupe_sources
    (PList [good; PDict [(AStr "field", PList [PStr "a"; PStr "b"])]])
  = Raise TypeError.
Proof.
  intros good.
  assert (Hgood : Forall is_citation [good]).
  { repeat constructor. by eexists. }
  split.
  - by apply (proj1 (dedupe_sources_rejects_malformed
                       [good] [] (PStr "price") Hgood)).
  - by apply (proj1 (proj2 (dedupe_sources_rejects_malformed [good] []
                (PDict [(AStr "field", PList [PStr "a"; PStr "b"])]) Hgood))
               _ eq_refl).
Defined.

(** ** Further facts about the merge *)

Lemma merge_from_ext M B B' i A :
  (forall j, i <= j < i + length A -> B !! j = B' !! j) ->
  merge_from M B i A = merge_from M B' i A.
Proof.
  revert i. induction A as [|cu A IH]; intros i H; simpl; [done|].
  assert (merge_unit M B i cu = merge_unit M B' i cu) as ->.
  { unfold merge_unit. rewrite (H i) by (simpl; lia). done. }
  rewrite (IH (S i)); [done|]. intros j Hj. apply H. simpl. lia.
Qed.

(** X3. The merge never looks at an installment unit whose index is
    beyond the contract list: cutting the installment list to the length
    of the contract list changes neither the result nor the exception. *)
Theorem merge_ignores_units_beyond_contract
    (M : gmap string (list string)) (A B : list pyval) :
  merge_results_with_cutouts M A B
  = merge_results_with_cutouts M A (take (length A) B).
Proof.
  unfold merge_results_with_cutouts. apply merge_from_ext.
  intros j Hj. symmetry. apply lookup_take_lt. lia.
Qed.

(** ** Facts about the combination step of [main] *)

Lemma combine_from_length i C B C' :
  i <= length C ->
  combine_from i C B = Ok C' ->
  length C' = length C `max` (i + length B).
Proof.
  revert i C. induction B as [|iu B IH]; intros i C Hi H; simpl in H.
  - injection H as <-. simpl. lia.
  - destruct (C !! i) as [cu|] eqn:E.
    + apply bind_Ok in H as (cu' & _ & H).
      apply lookup_lt_Some in E.
      apply IH in H; rewrite ?length_insert in *; simpl; lia.
    + apply lookup_ge_None in E.
      apply IH in H; rewrite ?length_app in *; simpl in *; lia.
Qed.

(** What the loop leaves at an index that held a unit when it started. *)
Lemma combine_from_lookup i C B C' j cu :
  combine_from i C B = Ok C' ->
  C !! j = Some cu ->
  exists cu',
    C' !! j = Some cu' /\
    match (if decide (i <= j) then B !! (j - i) else None) with
    | Some iu => combine_unit cu iu = Ok cu'
    | None => cu' = cu
    end.
Proof.
  revert i C cu. induction B as [|iu B IH]; intros i C cu H Hj; simpl in H.
  - injection H as <-. exists cu. split; [done|].
    destruct (decide (i <= j)); [by rewrite lookup_nil|done].
  - destruct (C !! i) as [cui|] eqn:E.
    + apply bind_Ok in H as (cui' & Hcui & H).
      destruct (decide (j = i)) as [->|Hne].
      * assert (cui = cu) as -> by congruence.
        destruct (IH _ _ cui' H) as (x & Hx & Hrel).
        { apply list_lookup_insert_eq. by eapply lookup_lt_Some. }
        exists x. split; [done|].
        rewrite decide_False in Hrel by lia. subst x.
        rewrite decide_True by lia. by rewrite Nat.sub_diag.
      * destruct (IH _ _ cu H) as (x & Hx & Hrel).
        { by rewrite list_lookup_insert_ne. }
        exists x. split; [done|].
        destruct (decide (i <= j)).
        -- rewrite decide_True in Hrel by lia.
           replace (j - i) with (S (j - S i)) by lia. done.
        -- by rewrite decide_False in Hrel by lia.
    + apply lookup_ge_None in E. pose proof (lookup_lt_Some _ _ _ Hj).
      destruct (IH _ _ cu H) as (x & Hx & Hrel).
      { by rewrite lookup_app_l. }
      exists x. split; [done|].
      rewrite decide_False in Hrel by lia. by rewrite decide_False by lia.
Qed.

(** What the loop leaves at an index beyond the units it started with. *)
Lemma combine_from_lookup_new i C B C' j :
  i <= length C ->
  combine_from i C B = Ok C' ->
  length C <= j ->
  C' !! j = B !! (j - i).
Proof.
  revert i C. induction B as [|iu B IH]; intros i C Hi H Hj; simpl in H.
  - injection H as <-. rewrite lookup_nil. by apply lookup_ge_None.
  - destruct (C !! i) as [cui|] eqn:E.
    + apply bind_Ok in H as (cui' & Hcui & H).
      apply lookup_lt_Some in E.
      assert (Hi' : S i <= length (<[i:=cui']> C))
        by (rewrite length_insert; lia).
      rewrite (IH _ _ Hi' H) by (rewrite length_insert; lia).
      by replace (j - i) with (S (j - S i)) by lia.
    + apply lookup_ge_None in E. assert (i = length C) as -> by lia.
      destruct (decide (j = length C)) as [->|Hne].
      * rewrite Nat.sub_diag. simpl.
        destruct (combine_from_lookup _ _ _ _ (length C) iu H)
          as (x & Hx & Hrel).
        { rewrite lookup_app_r by lia. by rewrite Nat.sub_diag. }
        rewrite decide_False in Hrel by lia. by subst x.
      * assert (Hi' : S (length C) <= length (C ++ [iu]))
          by (rewrite length_app; simpl; lia).
        rewrite (IH _ _ Hi' H) by (rewrite length_app; simpl; lia).
        by replace (j - length C) with (S (j - S (length C))) by lia.
Qed.

(** X4. The combination step keeps every unit: [combined_result] has
    [max(len(contract_result), len(installment_result))] units, the
    installment units beyond the contract list are appended as they are,
    and the contract list keeps its length. *)
Theorem combine_results_keeps_every_unit
    (A B A' C : list pyval) :
  combine_results A B = Ok (A', C) ->
  length C = length A `max` length B /\
  length A' = length A /\
  (forall j, length A <= j -> C !! j = B !! j).
Proof.
  unfold combine_results. intros H.
  apply bind_Ok in H as (C' & HC & H). injection H as <- <-.
  pose proof (combine_from_length 0 A B C' ltac:(lia) HC) as Hlen.
  split_and!.
  - done.
  - rewrite length_take. simpl in Hlen. lia.
  - intros j Hj.
    rewrite (combine_from_lookup_new 0 A B C' j ltac:(lia) HC Hj).
    by rewrite Nat.sub_0_r.
Qed.

Lemma combine_results_keeps_every_unit_witness :
  let A := [PDict [(AStr "sources", PList [])]] in
  let late := PDict [(AStr "unit", PDict [(AStr "unitCode", PStr "B-2")])] in
  exists A' C,
    combine_results A [PDict []; late] = Ok (A', C) /\
    length C = 2 /\ C !! 1 = Some late.
Proof.
  intros A late. eexists _, _. split; [reflexivity|].
  destruct (combine_results_keeps_every_unit A [PDict []; late] _ _ eq_refl)
    as (Hlen & _ & Hnew).
  split; [exact Hlen | exact (Hnew 1 (le_n 1))].
Defined.

Lemma py_setitem_Ok x k v y :
  py_setitem x k v = Ok y ->
  exists d, x = PDict d /\ y = PDict (dict_set (AStr k) v d).
Proof. destruct x as [| |d]; simpl; intros H; try done. injection H as <-. eauto. Qed.

Lemma py_getitem_Ok x k v :
  py_getitem x k = Ok v ->
  exists d, x = PDict d /\ dict_get (AStr k) d = Some v.
Proof.
  destruct x as [| |d]; simpl; intros H; try done.
  destruct (dict_get (AStr k) d) eqn:E; [|done]. injection H as <-. eauto.
Qed.

(** What [combine_unit] leaves in a contract unit. *)
Lemma combine_unit_inv cu iu cu' :
  combine_unit cu iu = Ok cu' ->
  exists raw l items ifields plans du,
    py_get iu "sources" (PList []) = Ok raw /\
    py_iter raw = Ok items /\
    py_getitem cu "sources" = Ok (PList l) /\
    py_get iu "unit" (PDict []) = Ok ifields /\
    py_get ifields "installmentPlans" (PList []) = Ok plans /\
    py_get cu' "sources" (PList []) = Ok (PList (l ++ items)) /\
    py_get cu' "unit" (PDict []) = Ok (PDict du) /\
    dict_get (AStr "installmentPlans") du = Some plans.
Proof.
  unfold combine_unit. intros H.
  apply bind_Ok in H as (raw & Hraw & H).
  apply bind_Ok in H as (ifields & Hif & H).
  apply bind_Ok in H as (plans & Hplans & H).
  apply bind_Ok in H as (iconf & Hiconf & H).
  apply bind_Ok in H as (sources & Hsources & H).
  apply bind_Ok in H as (sources' & Hext & H).
  apply bind_Ok in H as (cu1 & Hcu1 & H).
  apply bind_Ok in H as (cu2 & Hcu2 & H).
  apply bind_Ok in H as (unit & Hunit & H).
  apply bind_Ok in H as (unit' & Hunit' & H).
  apply bind_Ok in H as (cu3 & Hcu3 & H).
  apply bind_Ok in H as (cu4 & Hcu4 & H).
  apply bind_Ok in H as (conf & Hconf & H).
  apply bind_Ok in H as (conf' & Hconf' & H).
  destruct sources as [|l|]; simpl in Hext; try done.
  apply bind_Ok in Hext as (items & Hitems & Hext). injection Hext as <-.
  apply py_setitem_Ok in Hcu1 as (d & -> & ->).
  apply py_setitem_Ok in Hunit' as (du & -> & ->).
  assert (exists d2, cu2 = PDict d2 /\
            dict_get (AStr "sources") d2 = Some (PList (l ++ items)))
    as (d2 & -> & Hs2).
  { destruct (py_getitem _ "unit").
    - injection Hcu2 as <-. eexists. split; [done|].
      by rewrite dict_get_set.
    - apply py_setitem_Ok in Hcu2 as (? & [= <-] & ->).
      eexists. split; [done|]. by rewrite !dict_get_set. }
  apply py_setitem_Ok in Hcu3 as (? & [= <-] & ->).
  assert (exists d4, cu4 = PDict d4 /\
            dict_get (AStr "sources") d4 = Some (PList (l ++ items)) /\
            dict_get (AStr "unit") d4
            = Some (PDict (dict_set (AStr "installmentPlans") plans du)))
    as (d4 & -> & Hs4 & Hu4).
  { destruct (py_getitem _ "confidence").
    - injection Hcu4 as <-. eexists. split; [done|].
      by rewrite !dict_get_set.
    - apply py_setitem_Ok in Hcu4 as (? & [= <-] & ->).
      eexists. split; [done|]. by rewrite !dict_get_set. }
  apply py_setitem_Ok in H as (? & [= <-] & ->).
  exists raw, l, items, ifields, plans, (dict_set (AStr "installmentPlans") plans du).
  split_and!; try done.
  - simpl. by rewrite dict_get_set, Hs4.
  - simpl. by rewrite dict_get_set, Hu4.
  - by rewrite dict_get_set.
Qed.

(** The contract unit that the combination step leaves at an index. *)
Lemma combine_results_lookup A B A' C i cu' :
  combine_results A B = Ok (A', C) ->
  A' !! i = Some cu' ->
  exists cu,
    A !! i = Some cu /\
    match B !! i with
    | Some iu => combine_unit cu iu = Ok cu'
    | None => cu' = cu
    end.
Proof.
  unfold combine_results. intros H Hi.
  apply bind_Ok in H as (C' & HC & H). injection H as <- <-.
  apply lookup_take_Some in Hi as [Hi Hlt].
  destruct (lookup_lt_is_Some_2 A i Hlt) as [cu Hcu].
  exists cu. split; [done|].
  destruct (combine_from_lookup _ _ _ _ _ _ HC Hcu) as (x & Hx & Hrel).
  rewrite decide_True, Nat.sub_0_r in Hrel by lia.
  assert (x = cu') as -> by congruence. done.
Qed.

Lemma kept_installment_all_seen visible ks :
  (forall k, k ∈ ks -> key_in k visible = true) ->
  kept_installment visible ks = [].
Proof.
  induction ks as [|k ks IH]; intros H; simpl; [done|].
  rewrite (H k) by apply list_elem_of_here. apply IH.
  intros k' Hk'. apply H. by right.
Qed.

(** Every key among the deduplicated citations of some items is a key
    among those of any list that ends with the items. *)
Lemma dedupe_keyed_covers l items x kA kB :
  py_iter (py_or x (PList [])) = Ok items \/ py_truthy x = false ->
  dedupe_keyed (PList (l ++ items)) = Ok kA ->
  dedupe_keyed x = Ok kB ->
  forall k, k ∈ kB.*1 -> key_in k (kA.*1) = true.
Proof.
  intros Hx HA HB k Hk.
  destruct (dedupe_keyed_inv _ _ HA) as (srcsA & ksA & HitA & HksA & ->).
  destruct (dedupe_keyed_inv _ _ HB) as (srcsB & ksB & HitB & HksB & ->).
  assert (srcsA = l ++ items) as ->.
  { unfold py_or in HitA. destruct (l ++ items); simpl in HitA; congruence. }
  destruct Hx as [Hx|Hx].
  - assert (srcsB = items) as -> by congruence.
    apply Forall2_app_inv_l in HksA as (ksl & ksi & Hl & Hi & ->).
    rewrite (Forall2_has_key_functional _ _ _ Hi HksB) in *.
    pose proof (Forall2_length _ _ _ Hl) as Hlenl.
    pose proof (Forall2_length _ _ _ HksB) as Hleni.
    apply first_occurrences_complete; [|done].
    rewrite fst_zip by (rewrite !length_app; lia).
    rewrite key_in_app. apply orb_true_iff. right.
    apply key_in_true. exists k. split; [|apply key_eq_refl].
    assert (sublist ((first_occurrences [] (zip ksB items)).*1)
                    ((zip ksB items).*1)) as Hsub
      by apply fmap_sublist, first_occurrences_sublist.
    rewrite fst_zip in Hsub by lia.
    by eapply elem_of_sublist.
  - unfold py_or in HitB. rewrite Hx in HitB. injection HitB as <-.
    inversion HksB; subst. simpl in Hk. by apply elem_of_nil in Hk.
Qed.

Lemma py_iter_falsy_or x items :
  py_iter x = Ok items ->
  py_iter (py_or x (PList [])) = Ok items \/ py_truthy x = false.
Proof.
  unfold py_or. destruct (py_truthy x) eqn:E; [by left|by right].
Qed.

(** X5. On the contract list as the combination step of [main] leaves
    it, the merge appends no installment source: every source of every
    merged unit comes from the contract loop (and so carries [chunk_id]
    and follows the "calculated" rule), because the step has already put
    the installment citations into the contract citations. *)
Theorem combined_contract_absorbs_installment_sources
    (M : gmap string (list string)) (A B A' C : list pyval)
    (out : list merged_unit) (i : nat) (mu : merged_unit) :
  combine_results A B = Ok (A', C) ->
  merge_results_with_cutouts M A' B = Ok out ->
  out !! i = Some mu ->
  exists cu' kA,
    A' !! i = Some cu' /\
    deduped_citations cu' = Ok kA /\
    mu_sources mu = contract_source M (i + 1) <$> kA.
Proof.
  intros Hcomb Hrun Hi.
  destruct (merge_results_lookup _ _ _ _ _ _ Hrun Hi) as (cu' & Hcu' & Hmu).
  destruct (merge_unit_sources _ _ _ _ _ Hmu) as (kA & kB & HkA & HkB & Heq).
  exists cu', kA. split_and!; try done.
  rewrite Heq. rewrite kept_installment_all_seen; [by rewrite app_nil_r|].
  destruct (combine_results_lookup _ _ _ _ _ _ Hcomb Hcu') as (cu & Hcu & Hrel).
  destruct (B !! i) as [iu|]; simpl in HkB.
  - destruct (combine_unit_inv _ _ _ Hrel)
      as (raw & l & items & _ & _ & _ & Hraw & Hitems & _ & _ & _ & Hsrc & _).
    unfold deduped_citations in HkA, HkB. rewrite Hsrc in HkA. rewrite Hraw in HkB.
    simpl in HkA, HkB.
    apply bind_Ok in HkA as (keptA & HkeptA & HkA). injection HkA as <-.
    apply bind_Ok in HkB as (keptB & HkeptB & HkB). injection HkB as <-.
    eapply dedupe_keyed_covers; eauto using py_iter_falsy_or.
  - injection HkB as <-. by intros k ?%elem_of_nil.
Qed.

Lemma combined_contract_absorbs_installment_sources_witness :
  let A := [PDict [(AStr "sources",
                    PList [PDict [(AStr "field", PStr "price");
                                  (AStr "chunk_id", PStr "c1")]])]] in
  let B := [PDict [(AStr "sources",
                    PList [PDict [(AStr "field", PStr "dueDate");
                                  (AStr "chunk_id", PStr "calculated")]])]] in
  exists A' C out mu,
    combine_results A B = Ok (A', C) /\
    merge_results_with_cutouts ∅ A' B = Ok out /\
    out !! 0 = Some mu /\
    mu_sources mu
    = [PDict [(AStr "field", PStr "price"); (AStr "chunk_id", PStr "c1");
              (AStr "chunk_file_key", PStr "c1")];
       PDict [(AStr "field", PStr "dueDate");
              (AStr "chunk_id", PStr "calculated");
              (AStr "chunk_file_key", PNone)]].
Proof.
  intros A B. eexists _, _, _, _.
  split; [reflexivity|]. split; [reflexivity|]. split; [reflexivity|].
  destruct (combined_contract_absorbs_installment_sources ∅ A B _ _ _ 0 _
              eq_refl eq_refl eq_refl) as (cu' & kA & Hcu' & HkA & Hsrc).
  injection Hcu' as <-. injection HkA as <-. exact Hsrc.
Defined.

(** X6. On the contract list as the combination step leaves it, a
    merged unit with a counterpart always holds the counterpart's
    installment plans, the empty default included: the step assigns
    [installmentPlans] without looking at it, so contract-side plans do
    not survive a counterpart without plans. *)
Theorem combined_contract_takes_installment_plans
    (M : gmap string (list string)) (A B A' C : list pyval)
    (out : list merged_unit) (i : nat) (mu : merged_unit) (iu : pyval) :
  combine_results A B = Ok (A', C) ->
  merge_results_with_cutouts M A' B = Ok out ->
  out !! i = Some mu ->
  B !! i = Some iu ->
  exists ifields plans d,
    py_get iu "unit" (PDict []) = Ok ifields /\
    py_get ifields "installmentPlans" (PList []) = Ok plans /\
    mu_unit mu = PDict d /\
    dict_get (AStr "installmentPlans") d = Some plans.
Proof.
  intros Hcomb Hrun Hi HB.
  destruct (merge_results_lookup _ _ _ _ _ _ Hrun Hi) as (cu' & Hcu' & Hmu).
  destruct (combine_results_lookup _ _ _ _ _ _ Hcomb Hcu') as (cu & Hcu & Hrel).
  rewrite HB in Hrel.
  destruct (combine_unit_inv _ _ _ Hrel)
    as (_ & _ & _ & ifields & plans & du & _ & _ & _ & Hif & Hplans & _ & Hunit & Hdu).
  destruct (merge_unit_data _ _ _ _ _ Hmu) as (unit & conf & Hu & _ & Hdata).
  rewrite Hunit in Hu. simpl in Hu. injection Hu as <-.
  rewrite HB in Hdata. simpl in Hdata. rewrite Hif in Hdata. simpl in Hdata.
  rewrite Hplans in Hdata. simpl in Hdata.
  apply bind_Ok in Hdata as (unit' & Hset & Hdata).
  apply bind_Ok in Hdata as (iconf & _ & Hdata).
  apply bind_Ok in Hdata as (conf' & _ & Hdata). injection Hdata as <- _.
  exists ifields, plans.
  destruct (py_truthy plans).
  - injection Hset as <-. eexists. split_and!; try done.
    by rewrite dict_get_set.
  - injection Hset as <-. by exists du.
Qed.

Lemma combined_contract_takes_installment_plans_witness :
  let A := [PDict [(AStr "unit",
                    PDict [(AStr "installmentPlans", PList [PStr "X"])]);
                   (AStr "sources", PList [])]] in
  let B := [PDict []] in
  exists A' C out mu,
    combine_results A B = Ok (A', C) /\
    merge_results_with_cutouts ∅ A' B = Ok out /\
    out !! 0 = Some mu /\
    mu_unit mu = PDict [(AStr "installmentPlans", PList [])].
Proof.
  intros A B. eexists _, _, _, _.
  split; [reflexivity|]. split; [reflexivity|]. split; [reflexivity|].
  destruct (combined_contract_takes_installment_plans ∅ A B _ _ _ 0 _ _
              eq_refl eq_refl eq_refl eq_refl)
    as (ifields & plans & d & _).
  reflexivity.
Defined.

(** X7. A contract unit without a [sources] entry passes the merge but
    not the combination step: with a counterpart unit the step
    subscripts [sources] and raises [KeyError], on lists of units that
    the merge accepts. *)
Theorem combine_results_needs_sources
    (M : gmap string (list string)) (d : pydict) (iu : pyval)
    (A B : list pyval) :
  Forall well_shaped (PDict d :: A) ->
  Forall well_shaped (iu :: B) ->
  dict_get (AStr "sources") d = None ->
  combine_results (PDict d :: A) (iu :: B) = Raise KeyError /\
  exists out, merge_results_with_cutouts M (PDict d :: A) (iu :: B) = Ok out.
Proof.
  intros HA HB Hnone. split.
  - unfold combine_results. simpl. unfold combine_unit.
    apply Forall_cons in HB as [Hiu _].
    destruct iu as [| |e]; simpl in *; try done.
    destruct Hiu as (Hu & _ & _).
    destruct (mapping_or_absent_default _ Hu) as [du ->]. simpl.
    by rewrite Hnone.
  - exact (merge_from_total M (iu :: B) 0 (PDict d :: A) HA HB).
Qed.

Lemma combine_results_needs_sources_witness :
  let A := [PDict [(AStr "unit", PDict [(AStr "buyerName", PStr "Ana")])]] in
  combine_results A [PDict []] = Raise KeyError /\
  exists out, merge_results_with_cutouts ∅ A [PDict []] = Ok out.
Proof.
  intros A.
  apply (combine_results_needs_sources ∅
           [(AStr "unit", PDict [(AStr "buyerName", PStr "Ana")])]
           (PDict []) [] []).
  - by repeat constructor.
  - by repeat constructor.
  - reflexivity.
Defined.

(** ** Facts about the coverage diagnostics *)

Lemma missing_in_sources_spec n srcs :
  Forall map_like srcs ->
  exists m,
    missing_in_sources n srcs = Ok m /\
    forall p, p ∈ m <-> exists s, s ∈ srcs /\ p.1 = n /\ lacks_chunk s p.2.
Proof.
  induction 1 as [|s srcs [d ->] _ (m & Hm & IH)].
  - exists []. split; [done|]. intros p. split.
    + by intros ?%elem_of_nil.
    + by intros (s & ?%elem_of_nil & _).
  - simpl. rewrite Hm.
    destruct (py_truthy (default PNone (dict_get (AStr "chunk_id") d))) eqn:E.
    + exists m. split; [done|]. intros p. rewrite IH. split.
      * intros (s & Hs & Hp). exists s. split; [by right|done].
      * intros (s & Hs & Hn & c & Hc & Hfalsy & Hf).
        apply elem_of_cons in Hs as [->|Hs].
        -- simpl in Hc. injection Hc as <-. congruence.
        -- exists s. split; [done|]. split; [done|]. by exists c.
    + simpl. eexists. split; [done|]. intros p.
      rewrite elem_of_cons, IH. split.
      * intros [->|(s & Hs & Hp)].
        -- exists (PDict d). split; [by left|]. split; [done|].
           eexists. by split_and!.
        -- exists s. split; [by right|done].
      * intros (s & Hs & Hn & c & Hc & Hfalsy & Hf).
        apply elem_of_cons in Hs as [->|Hs].
        -- left. destruct p as [n' f']. simpl in *. congruence.
        -- right. exists s. split; [done|]. split; [done|]. by exists c.
Qed.

Lemma missing_from_spec i units srcss :
  Forall2 lists_sources units srcss ->
  exists m,
    missing_from i units = Ok m /\
    forall p, p ∈ m <->
      exists j srcs s,
        srcss !! j = Some srcs /\ s ∈ srcs /\
        p.1 = i + j + 1 /\ lacks_chunk s p.2.
Proof.
  intros H. revert i.
  induction H as [|u srcs units srcss [Hu Hsrcs] _ IH]; intros i.
  - exists []. split; [done|]. intros p. split.
    + by intros ?%elem_of_nil.
    + intros (j & srcs & s & Hj & _). by rewrite lookup_nil in Hj.
  - simpl. rewrite Hu. simpl.
    destruct (missing_in_sources_spec (i + 1) srcs Hsrcs) as (m & -> & Hm).
    destruct (IH (S i)) as (m' & -> & Hm'). simpl.
    exists (m ++ m'). split; [done|]. intros p.
    rewrite elem_of_app, Hm, Hm'. split.
    + intros [(s & Hs & Hn & Hl)|(j & srcs' & s & Hj & Hs & Hn & Hl)].
      * exists 0, srcs, s. split_and!; try done. lia.
      * exists (S j), srcs', s. split_and!; try done. lia.
    + intros (j & srcs' & s & Hj & Hs & Hn & Hl).
      destruct j as [|j]; simpl in Hj.
      * injection Hj as <-. left. exists s. split_and!; try done. lia.
      * right. exists j, srcs', s. split_and!; try done. lia.
Qed.

(** X8. On units whose sources are lists of map-like records the
    coverage report raises nothing, and it names exactly the sources
    without a usable chunk identifier: [(n, f)] is reported if and only
    if unit [n] (counted from 1) has a source with field [f] whose
    [chunk_id] is absent, null or otherwise false.  A "calculated" chunk
    identifier counts as present. *)
Theorem chunk_coverage_reports_exactly_missing
    (units : list pyval) (srcss : list (list pyval)) :
  Forall2 lists_sources units srcss ->
  exists missing,
    chunk_coverage_missing (PList units) = Ok missing /\
    forall n f,
      (n, f) ∈ missing <->
      exists j srcs s,
        srcss !! j = Some srcs /\ s ∈ srcs /\ n = j + 1 /\ lacks_chunk s f.
Proof.
  intros H. destruct (missing_from_spec 0 units srcss H) as (m & Hm & Hspec).
  exists m. split.
  - unfold chunk_coverage_missing, py_or.
    assert (py_iter (if py_truthy (PList units) then PList units else PList [])
            = Ok units) as -> by by destruct units.
    done.
  - intros n f. by rewrite Hspec.
Qed.

Lemma chunk_coverage_reports_exactly_missing_witness :
  let units :=
    [PDict [];
     PDict [(AStr "sources",
             PList [PDict [(AStr "field", PStr "total");
                           (AStr "chunk_id", PStr "calculated")];
                    PDict [(AStr "field", PStr "price")]])]] in
  chunk_coverage_missing (PList units) = Ok [(2, PStr "price")].
Proof.
  intros units.
  destruct (chunk_coverage_reports_exactly_missing units
              [[]; [PDict [(AStr "field", PStr "total");
                           (AStr "chunk_id", PStr "calculated")];
                    PDict [(AStr "field", PStr "price")]]])
    as (missing & Hrun & _).
  - repeat constructor; by eexists.
  - reflexivity.
Defined.

(** X9. A unit whose [sources] entry is null passes the merge, which
    reads it as no sources, but not the coverage report, which iterates
    over it and raises [TypeError]. *)
Theorem chunk_coverage_rejects_null_sources
    (M : gmap string (list string)) (d : pydict) (A B : list pyval) :
  Forall well_shaped (PDict d :: A) ->
  Forall well_shaped B ->
  dict_get (AStr "sources") d = Some PNone ->
  chunk_coverage_missing (PList (PDict d :: A)) = Raise TypeError /\
  exists out, merge_results_with_cutouts M (PDict d :: A) B = Ok out.
Proof.
  intros HA HB Hnull. split.
  - unfold chunk_coverage_missing. simpl. by rewrite Hnull.
  - exact (merge_from_total M B 0 (PDict d :: A) HA HB).
Qed.

Lemma chunk_coverage_rejects_null_sources_witness :
  let A := [PDict [(AStr "sources", PNone)]] in
  chunk_coverage_missing (PList A) = Raise TypeError /\
  exists out, merge_results_with_cutouts ∅ A [] = Ok out.
Proof.
  intros A.
  apply (chunk_coverage_rejects_null_sources ∅ [(AStr "sources", PNone)] [] []).
  - by repeat constructor.
  - constructor.
  - reflexivity.
Defined.

Lemma missing_in_sources_nil n srcs :
  missing_in_sources n srcs = Ok [] -> Forall has_chunk srcs.
Proof.
  induction srcs as [|s srcs IH]; intros H; [constructor|].
  simpl in H. apply bind_Ok in H as (c & Hc & H).
  destruct (py_truthy c) eqn:E.
  - constructor; [by exists c | by apply IH].
  - apply bind_Ok in H as (f & _ & H). apply bind_Ok in H as (m & _ & H).
    discriminate.
Qed.

Lemma missing_from_nil i units j u :
  missing_from i units = Ok [] ->
  units !! j = Some u ->
  exists raw srcs,
    py_get u "sources" (PList []) = Ok raw /\
    py_iter raw = Ok srcs /\
    Forall has_chunk srcs.
Proof.
  revert i j. induction units as [|u' units IH]; intros i j H Hj.
  - by rewrite lookup_nil in Hj.
  - simpl in H. apply bind_Ok in H as (raw & Hraw & H).
    apply bind_Ok in H as (srcs & Hsrcs & H).
    apply bind_Ok in H as (m & Hm & H).
    apply bind_Ok in H as (m' & Hm' & H). injection H as H.
    apply app_eq_nil in H as [-> ->].
    destruct j as [|j]; simpl in Hj.
    + injection Hj as <-. exists raw, srcs. split_and!; try done.
      by eapply missing_in_sources_nil.
    + eauto.
Qed.

Lemma has_key_chunk s k :
  has_key s k -> py_get s "chunk_id" PNone = Ok (Atom k.2).
Proof.
  unfold has_key, source_key. intros H.
  apply bind_Ok in H as (f & Hf & H). apply bind_Ok in H as (c & Hc & H).
  apply bind_Ok in H as (fa & Hfa & H). apply bind_Ok in H as (ca & Hca & H).
  injection H as <-. simpl. destruct c; simpl in Hca; try done.
  by injection Hca as <-.
Qed.

Lemma atom_eq_str a s : atom_eq a (AStr s) = true <-> a = AStr s.
Proof.
  destruct a as [|b|z|s']; simpl; try (split; done).
  rewrite String.eqb_eq. split; congruence.
Qed.

(** X10. When the coverage report of the contract list is empty, every
    deduplicated contract citation has a chunk identifier, and its
    merged source has a null [chunk_file_key] exactly when the artifact
    map has no locator for the field and the chunk identifier is
    "calculated". *)
Theorem clean_coverage_null_only_for_calculated
    (M : gmap string (list string)) (A B : list pyval)
    (out : list merged_unit) (i : nat) (mu : merged_unit) :
  chunk_coverage_missing (PList A) = Ok [] ->
  merge_results_with_cutouts M A B = Ok out ->
  out !! i = Some mu ->
  exists cu kA,
    A !! i = Some cu /\
    deduped_citations cu = Ok kA /\
    forall j k,
      kA !! j = Some k ->
      py_truthy (Atom k.2) = true /\
      exists s,
        mu_sources mu !! j = Some s /\
        (source_get s "chunk_file_key" = Some PNone <->
         s3_uris M (i + 1) k.1 = [] /\ k.2 = AStr "calculated").
Proof.
  intros Hcov Hrun Hi.
  destruct (merge_results_lookup _ _ _ _ _ _ Hrun Hi) as (cu & Hcu & Hmu).
  destruct (merge_unit_sources _ _ _ _ _ Hmu) as (kA & kB & HkA & _ & Heq).
  exists cu, kA. split_and!; try done. intros j k Hk.
  assert (Htruthy : py_truthy (Atom k.2) = true).
  { unfold chunk_coverage_missing, py_or in Hcov.
    assert (py_iter (if py_truthy (PList A) then PList A else PList [])
            = Ok A) as Hit by by destruct A.
    rewrite Hit in Hcov. simpl in Hcov.
    destruct (missing_from_nil _ _ _ _ Hcov Hcu) as (raw & srcs & Hraw & Hsrcs & Hall).
    unfold deduped_citations in HkA. rewrite Hraw in HkA. simpl in HkA.
    apply bind_Ok in HkA as (kept & Hkept & HkA). injection HkA as <-.
    apply list_elem_of_lookup_2, list_elem_of_fmap in Hk as ([k' s] & -> & Hin).
    pose proof (dedupe_keyed_reads _ _ _ _ Hkept Hin) as Hread.
    destruct (dedupe_keyed_inv _ _ Hkept) as (srcs' & ks & Hit' & Hks & ->).
    assert (s ∈ srcs') as Hs.
    { pose proof (Forall2_length _ _ _ Hks).
      rewrite <- (snd_zip ks srcs') by lia.
      apply list_elem_of_fmap. exists (k', s). split; [done|].
      eapply elem_of_sublist; [exact Hin|apply first_occurrences_sublist]. }
    unfold py_or in Hit'. destruct (py_truthy raw).
    - assert (srcs' = srcs) as -> by congruence.
      rewrite Forall_forall in Hall.
      destruct (Hall s Hs) as (c & Hc & Hct).
      rewrite (has_key_chunk _ _ Hread) in Hc. by injection Hc as <-.
    - injection Hit' as <-. by apply elem_of_nil in Hs. }
  split; [done|].
  exists (contract_source M (i + 1) k). split.
  - rewrite Heq, lookup_app_l by (rewrite length_fmap; by eapply lookup_lt_Some).
    by rewrite list_lookup_fmap, Hk.
  - destruct k as [f c]. simpl in *.
    destruct (s3_uris M (i + 1) f) as [|uri uris]; simpl.
    + destruct (atom_eq c (AStr "calculated")) eqn:E.
      * apply atom_eq_str in E. by subst.
      * split.
        -- intros [= ->]. done.
        -- intros [_ ->]. by rewrite atom_eq_refl in E.
    + split; [done|]. by intros [? _].
Qed.

Lemma clean_coverage_null_only_for_calculated_witness :
  let A :=
    [PDict [(AStr "sources",
             PList [PDict [(AStr "field", PStr "total");
                           (AStr "chunk_id", PStr "calculated")];
                    PDict [(AStr "field", PStr "price");
                           (AStr "chunk_id", PStr "c4")]])]] in
  exists out mu,
    chunk_coverage_missing (PList A) = Ok [] /\
    merge_results_with_cutouts ∅ A [] = Ok out /\
    out !! 0 = Some mu /\
    (fun s => source_get s "chunk_file_key") <$> mu_sources mu
    = [Some PNone; Some (PStr "c4")].
Proof.
  intros A. eexists _, _. split; [reflexivity|]. split; [reflexivity|].
  split; [reflexivity|].
  destruct (clean_coverage_null_only_for_calculated ∅ A [] _ 0 _
              eq_refl eq_refl eq_refl) as (cu & kA & _).
  reflexivity.
Defined.

(** ** Facts about the raw text file *)

Lemma str_app_assoc (s1 s2 s3 : string) :
  (s1 +:+ s2) +:+ s3 = s1 +:+ (s2 +:+ s3).
Proof.
  induction s1 as [|c s1 IH]; [done|].
  change (String c ((s1 +:+ s2) +:+ s3) = String c (s1 +:+ s2 +:+ s3)).
  by f_equal.
Qed.

Lemma str_app_nil_r (s : string) : s +:+ "" = s.
Proof.
  induction s as [|c s IH]; [done|].
  change (String c (s +:+ "") = String c s). by f_equal.
Qed.

Section RawTextFacts.

Variable container_str : pyval -> string.

Lemma raw_text_from_app current_page c1 c2 :
  raw_text_from container_str current_page (c1 ++ c2)
  = (s1 <- raw_text_from container_str current_page c1 ;;
     s2 <- raw_text_from container_str
             (page_after current_page c1) c2 ;;
     Ok (s1 +:+ s2)).
Proof.
  revert current_page. induction c1 as [|chunk c1 IH]; intros current_page.
  - simpl. by destruct (raw_text_from _ _ c2).
  - simpl. destruct (py_get chunk "page" PNone) as [page|]; simpl; [|done].
    destruct (py_get chunk "text" (PStr "")) as [text|]; simpl; [|done].
    destruct (py_write text) as [written|]; simpl; [|done].
    rewrite IH.
    destruct (raw_text_from _ _ c1) as [s1|]; simpl; [|done].
    destruct (raw_text_from _ _ c2) as [s2|]; simpl; [|done].
    by rewrite !str_app_assoc.
Qed.

End RawTextFacts.

(** X11. The file is written front to back: the text for a chunk list
    is the text for any initial part of it followed by the text for the
    rest, and the rest depends on the initial part only through the page
    it ends on; an exception in the initial part is the exception of the
    whole. *)
Theorem raw_text_is_incremental
    (container_str : pyval -> string) (c1 c2 : list pyval) :
  save_raw_text_from_chunks container_str (c1 ++ c2)
  = (s1 <- save_raw_text_from_chunks container_str c1 ;;
     s2 <- raw_text_from container_str (page_after PNone c1) c2 ;;
     Ok (s1 +:+ s2)).
Proof. unfold save_raw_text_from_chunks. apply raw_text_from_app. Qed.

Lemma raw_text_same_page container_str (a : atom) chunks texts :
  Forall2 (chunk_on a) chunks texts ->
  raw_text_from container_str (Atom a) chunks = Ok (paragraphs texts).
Proof.
  induction 1 as [|chunk text chunks texts [Hp Ht] _ IH]; [done|].
  simpl. rewrite Hp, Ht. simpl.
  unfold next_page, page_change. simpl. rewrite atom_eq_refl, IH. done.
Qed.

(** X12. Chunks that all sit on one page give one banner followed by
    the texts, each closed by an empty line; when the page is missing
    from all of them (null), there is no banner at all. *)
Theorem raw_text_single_page
    (container_str : pyval -> string) (a : atom)
    (chunks : list pyval) (texts : list string) :
  Forall2 (chunk_on a) chunks texts ->
  chunks <> [] ->
  save_raw_text_from_chunks container_str chunks
  = Ok ((if a is ANone then "" else page_marker container_str (Atom a))
          +:+ paragraphs texts).
Proof.
  intros H Hne. destruct H as [|chunk text chunks texts [Hp Ht] H]; [done|].
  unfold save_raw_text_from_chunks. simpl. rewrite Hp, Ht. simpl.
  unfold next_page, page_change. simpl.
  destruct a as [|b|z|s]; simpl.
  - by rewrite (raw_text_same_page _ ANone _ _ H).
  - by rewrite (raw_text_same_page _ (ABool b) _ _ H).
  - by rewrite (raw_text_same_page _ (AInt z) _ _ H).
  - by rewrite (raw_text_same_page _ (AStr s) _ _ H).
Qed.

Lemma raw_text_single_page_witness :
  let chunk t := PDict [(AStr "text", PStr t); (AStr "page", Atom (AInt 3))] in
  save_raw_text_from_chunks (fun _ => "") [chunk "Clause 1"; chunk "Clause 2"]
  = Ok (banner +:+ newline +:+ "PAGE 3" +:+ newline +:+ banner +:+ newline
          +:+ newline +:+ "Clause 1" +:+ newline +:+ newline
          +:+ "Clause 2" +:+ newline +:+ newline).
Proof.
  intros chunk.
  rewrite (raw_text_single_page (fun _ => "") (AInt 3)
             [chunk "Clause 1"; chunk "Clause 2"] ["Clause 1"; "Clause 2"]).
  - reflexivity.
  - by repeat constructor.
  - done.
Defined.

(** X13. A chunk whose text is not a string (a null [text], say) makes
    the function raise [TypeError], whatever follows it, once the chunks
    before it have been written. *)
Theorem raw_text_rejects_non_string_text
    (container_str : pyval -> string)
    (pre post : list pyval) (chunk page text : pyval) (written : string) :
  save_raw_text_from_chunks container_str pre = Ok written ->
  py_get chunk "page" PNone = Ok page ->
  py_get chunk "text" (PStr "") = Ok text ->
  (forall s, text <> PStr s) ->
  save_raw_text_from_chunks container_str (pre ++ chunk :: post)
  = Raise TypeError.
Proof.
  intros Hpre Hp Ht Hns. unfold save_raw_text_from_chunks in *.
  rewrite raw_text_from_app, Hpre. simpl. rewrite Hp, Ht. simpl.
  destruct text as [[| | |s]| |]; simpl; try done. by destruct (Hns s).
Qed.

Lemma raw_text_rejects_non_string_text_witness :
  save_raw_text_from_chunks (fun _ => "")
    [PDict [(AStr "text", PStr "Clause 1"); (AStr "page", Atom (AInt 1))];
     PDict [(AStr "text", PNone); (AStr "page", Atom (AInt 1))]]
  = Raise TypeError.
Proof.
  apply (raw_text_rejects_non_string_text (fun _ => "")
           [PDict [(AStr "text", PStr "Clause 1"); (AStr "page", Atom (AInt 1))]]
           [] (PDict [(AStr "text", PNone); (AStr "page", Atom (AInt 1))])
           (Atom (AInt 1)) PNone _ eq_refl eq_refl eq_refl).
  done.
Defined.

(** ** Facts about the string operations *)

Lemma str_app_cons a (s t : string) : String a s +:+ t = String a (s +:+ t).
Proof. done. Qed.

Lemma str_rstrip_app_sep c s :
  str_rstrip c (s +:+ String c "") = str_rstrip c s.
Proof.
  induction s as [|a s IH].
  - change (str_rstrip c (String c "") = ""). simpl. by rewrite Ascii.eqb_refl.
  - rewrite ?str_app_cons. simpl. by rewrite IH.
Qed.

Lemma str_rstrip_id c s : str_endswith c s = false -> str_rstrip c s = s.
Proof.
  induction s as [|a s IH]; [done|]. simpl.
  destruct s as [|b s].
  - simpl. by intros ->.
  - intros H. by rewrite (IH H).
Qed.

Lemma str_endswith_rstrip c s : str_endswith c (str_rstrip c s) = false.
Proof.
  induction s as [|a s IH]; [done|]. simpl.
  destruct (str_rstrip c s) as [|b r] eqn:E.
  - destruct (Ascii.eqb a c) eqn:Ea; simpl; by rewrite ?Ea.
  - exact IH.
Qed.

Lemma str_endswith_app_sep c s : str_endswith c (s +:+ String c "") = true.
Proof.
  induction s as [|a s IH].
  - change (str_endswith c (String c "") = true). simpl. apply Ascii.eqb_refl.
  - rewrite ?str_app_cons. simpl.
    destruct (s +:+ String c "") eqn:E; [|done].
    by destruct s.
Qed.

Lemma prefix_app sub s t :
  String.prefix sub s = true -> String.prefix sub (s +:+ t) = true.
Proof.
  revert sub. induction s as [|a s IH]; intros sub.
  - destruct sub; [by destruct t|done].
  - destruct sub as [|b sub]; [done|].
    rewrite str_app_cons. simpl. destruct (ascii_dec b a); [apply IH|done].
Qed.

Lemma prefix_self_app sub t : String.prefix sub (sub +:+ t) = true.
Proof.
  induction sub as [|a sub IH]; [by destruct t|].
  rewrite ?str_app_cons. simpl. by destruct (ascii_dec a a).
Qed.

Lemma str_contains_app_l sub s t :
  str_contains sub s = true -> str_contains sub (s +:+ t) = true.
Proof.
  induction s as [|a s IH].
  - simpl. rewrite orb_false_r. intros H.
    destruct sub; [by destruct t|done].
  - rewrite ?str_app_cons. simpl str_contains. rewrite !orb_true_iff.
    intros [H|H]; [left|right; by apply IH].
    by apply (prefix_app _ (String a s)).
Qed.

Lemma str_contains_app_r sub s t :
  str_contains sub t = true -> str_contains sub (s +:+ t) = true.
Proof.
  intros H. induction s as [|a s IH]; [done|].
  rewrite ?str_app_cons. simpl str_contains. rewrite IH. apply orb_true_r.
Qed.

Lemma str_contains_prefix sub s :
  String.prefix sub s = true -> str_contains sub s = true.
Proof.
  intros H. destruct s as [|a s].
  - destruct sub; [done|discriminate].
  - simpl str_contains. apply orb_true_iff. by left.
Qed.

(** ** Facts about the notification *)

(** X14. The endpoint does not depend on trailing slashes of the API
    URL: it is the URL without them, then "/api/v1" unless the URL
    already holds it somewhere, then the route; so it always holds
    "/api/v1", and the route never follows a doubled slash. *)
Theorem endpoint_url_normalised (api_url : string) :
  let base := str_rstrip "/" api_url in
  endpoint_url (api_url +:+ "/") = endpoint_url api_url /\
  str_endswith "/" base = false /\
  endpoint_url api_url
  = base +:+ (if str_contains "/api/v1" base then "" else "/api/v1")
         +:+ results_route /\
  str_contains "/api/v1" (endpoint_url api_url) = true.
Proof.
  intros base.
  assert (Hbase : forall u,
            (if str_endswith "/" u then str_rstrip "/" u else u)
            = str_rstrip "/" u).
  { intros u. destruct (str_endswith "/" u) eqn:E; [done|].
    by rewrite str_rstrip_id. }
  assert (Heq : forall u,
            endpoint_url u
            = str_rstrip "/" u
                +:+ (if str_contains "/api/v1" (str_rstrip "/" u)
                     then "" else "/api/v1")
                +:+ results_route).
  { intros u. unfold endpoint_url. rewrite Hbase.
    by destruct (str_contains "/api/v1" (str_rstrip "/" u)). }
  split_and!.
  - by rewrite !Heq, (str_rstrip_app_sep "/" api_url).
  - apply str_endswith_rstrip.
  - apply Heq.
  - rewrite Heq. fold base.
    destruct (str_contains "/api/v1" base) eqn:E.
    + by apply str_contains_app_l.
    + apply str_contains_app_r, str_contains_prefix, prefix_self_app.
Qed.

(** X15. The payload always carries [contract_id], [output_path] and
    [status] as given, and carries [error_message] and [error_type]
    only when they are true in a condition: an empty or null error text
    is left out, not sent empty. *)
Theorem extraction_payload_entries
    (contract_id output_path status error_message error_type : pyval) :
  let payload :=
    extraction_payload contract_id output_path status
      error_message error_type in
  dict_get (AStr "contract_id") payload = Some contract_id /\
  dict_get (AStr "output_path") payload = Some output_path /\
  dict_get (AStr "status") payload = Some status /\
  dict_get (AStr "error_message") payload
  = (if py_truthy error_message then Some error_message else None) /\
  dict_get (AStr "error_type") payload
  = (if py_truthy error_type then Some error_type else None) /\
  length payload
  = 3 + (if py_truthy error_message then 1 else 0)
      + (if py_truthy error_type then 1 else 0).
Proof.
  unfold extraction_payload.
  by destruct (py_truthy error_message), (py_truthy error_type).
Qed.

(** ** Facts about the download path *)

Lemma str_split_inv sep s :
  exists dir name parts,
    str_split sep s = parts ++ [name] /\
    s = dir +:+ name /\
    str_contains (String sep "") name = false /\
    (if parts is [] then dir = "" else str_endswith sep dir = true).
Proof.
  induction s as [|a s (dir & name & parts & Hsplit & Hs & Hname & Hdir)].
  - exists "", "", []. by split_and!.
  - simpl. destruct (Ascii.eqb a sep) eqn:Ea.
    + apply Ascii.eqb_eq in Ea as ->.
      exists (String sep dir), name, ("" :: parts). split_and!.
      * by rewrite Hsplit.
      * by rewrite Hs.
      * done.
      * destruct parts; simpl.
        -- subst dir. simpl. apply Ascii.eqb_refl.
        -- destruct dir; [done|]. exact Hdir.
    + rewrite Hsplit. destruct parts as [|part parts]; simpl.
      * subst dir. exists "", (String a name), []. split_and!; try done.
        -- by rewrite Hs.
        -- simpl. simpl in Hname. rewrite Hname.
           destruct (ascii_dec sep a) as [->|]; [|by destruct name].
           by rewrite Ascii.eqb_refl in Ea.
      * exists (String a dir), name, (String a part :: parts).
        split_and!; try done.
        -- by rewrite Hs.
        -- destruct dir; [done|]. exact Hdir.
Qed.

(** X16. The file that [handler] downloads lands directly in [/tmp]:
    the local name is the part of the key after its last slash, it holds
    no slash, and what precedes it in the key is empty or ends with a
    slash.  (A key that ends with a slash gives the empty name.) *)
Theorem local_file_path_is_flat (file_key : string) :
  exists dir,
    file_key = dir +:+ file_name file_key /\
    (dir = "" \/ str_endswith "/" dir = true) /\
    str_contains "/" (file_name file_key) = false /\
    local_file_path file_key = "/tmp/" +:+ file_name file_key.
Proof.
  destruct (str_split_inv "/" file_key)
    as (dir & name & parts & Hsplit & Hs & Hname & Hdir).
  assert (file_name file_key = name) as Hfn.
  { unfold file_name. rewrite Hsplit. apply last_last. }
  exists dir. unfold local_file_path. rewrite Hfn. split_and!; try done.
  destruct parts; [by left|by right].
Qed.

(** ** Facts about the artifact keys and the upload *)

Lemma pretty_N_char_digit x : digit_char (pretty_N_char x) = true.
Proof. unfold pretty_N_char. by repeat case_match. Qed.

Lemma pretty_N_go_digits x s :
  str_forall digit_char s = true ->
  str_forall digit_char (pretty_N_go x s) = true.
Proof.
  revert s. induction (N.lt_wf_0 x) as [x _ IH]; intros s Hs.
  assert (x = 0 \/ 0 < x)%N as [->|Hx] by lia.
  - by rewrite pretty_N_go_0.
  - rewrite pretty_N_go_step by done. apply IH; [by apply N.div_lt|].
    simpl. by rewrite pretty_N_char_digit, Hs.
Qed.

Lemma pretty_nat_digits (n : nat) : str_forall digit_char (pretty n) = true.
Proof.
  unfold pretty, pretty_nat, pretty, pretty_N.
  destruct (decide (N.of_nat n = 0%N)); [done|].
  by apply pretty_N_go_digits.
Qed.

Lemma str_forall_impl (P Q : ascii -> bool) s :
  (forall c, P c = true -> Q c = true) ->
  str_forall P s = true -> str_forall Q s = true.
Proof.
  intros H. induction s as [|a s IH]; simpl; [done|].
  rewrite !andb_true_iff. intros [Ha Hs]. auto.
Qed.

Lemma str_split_once_app sep s rest :
  str_forall (fun c => negb (Ascii.eqb c sep)) s = true ->
  str_split_once sep (s +:+ String sep rest) = Some (s, rest).
Proof.
  induction s as [|a s IH]; intros H.
  - change (str_split_once sep (String sep rest) = Some ("", rest)).
    simpl. by rewrite Ascii.eqb_refl.
  - simpl in H. apply andb_true_iff in H as [Ha Hs].
    rewrite str_app_cons. simpl. apply negb_true_iff in Ha. rewrite Ha.
    by rewrite IH.
Qed.

Lemma str_remove_unit_id s :
  str_forall (fun c => negb (Ascii.eqb c "u")) s = true ->
  str_remove_unit s = s.
Proof.
  induction s as [|a s IH]; intros H; [done|].
  simpl in H. apply andb_true_iff in H as [Ha Hs].
  apply negb_true_iff, Ascii.eqb_neq in Ha.
  specialize (IH Hs).
  destruct a as [[] [] [] [] [] [] [] []]; simpl; by rewrite ?IH.
Qed.

Lemma field_key_shape n field :
  field_key n field
  = ("unit" +:+ pretty n) +:+ String "_" (atom_str field).
Proof. unfold field_key. by rewrite str_app_assoc. Qed.

Lemma digit_not_underscore c :
  digit_char c = true -> negb (Ascii.eqb c "_") = true.
Proof. destruct c as [[] [] [] [] [] [] [] []]; by vm_compute. Qed.

Lemma digit_not_u c :
  digit_char c = true -> negb (Ascii.eqb c "u") = true.
Proof. destruct c as [[] [] [] [] [] [] [] []]; by vm_compute. Qed.

Lemma parse_field_key_field_key n field :
  parse_field_key (field_key n field) = (pretty n, atom_str field).
Proof.
  assert (Hdigits := pretty_nat_digits n).
  unfold parse_field_key.
  rewrite field_key_shape, (str_split_once_app "_" ("unit" +:+ pretty n)).
  - f_equal. change (str_remove_unit (pretty n) = pretty n).
    apply str_remove_unit_id.
    eapply str_forall_impl; [apply digit_not_u|exact Hdigits].
  - change (str_forall (fun c => negb (Ascii.eqb c "_"))
              (String "u" (String "n" (String "i" (String "t" (pretty n)))))
            = true).
    simpl. eapply str_forall_impl; [apply digit_not_underscore|exact Hdigits].
Qed.

(** X17. The key scheme of the merge and the key parsing of the upload
    agree: from the key that the merge looks up for unit [n] and a
    field, [upload_cutouts_to_s3] reads back the decimal unit number and
    the field as it was rendered, so the cutout of that field is stored
    under [contracts/{job_id}/images/unit_{n}/{field}{ext}]. *)
Theorem upload_reads_back_merge_key
    (splitext_ext : string -> string) (job_id local_path : string)
    (n : nat) (field : atom) :
  parse_field_key (field_key n field) = (pretty n, atom_str field) /\
  cutout_s3_key splitext_ext job_id (field_key n field) local_path
  = "contracts/" +:+ job_id +:+ "/images/unit_" +:+ pretty n +:+ "/"
      +:+ atom_str field +:+ splitext_ext local_path.
Proof.
  split; [apply parse_field_key_field_key|].
  unfold cutout_s3_key. by rewrite parse_field_key_field_key.
Qed.

(** X18. Two units never share an artifact key: equal keys come from
    the same unit number and from fields with the same rendering. *)
Theorem field_key_separates_units (n n' : nat) (field field' : atom) :
  field_key n field = field_key n' field' ->
  n = n' /\ atom_str field = atom_str field'.
Proof.
  intros H.
  assert (parse_field_key (field_key n field)
          = parse_field_key (field_key n' field')) as Hp by by rewrite H.
  rewrite !parse_field_key_field_key in Hp. injection Hp as Hn Hf.
  split; [by apply (inj pretty)|done].
Qed.

Lemma field_key_separates_units_witness :
  field_key 1 (AStr "1_price") <> field_key 11 (AStr "price").
Proof.
  intros H.
  destruct (field_key_separates_units 1 11 (AStr "1_price") (AStr "price") H)
    as [Hn _].
  discriminate Hn.
Defined.

Section UploadFacts.

Variable world : Type.
Variable path_exists : world -> string -> bool.
Variable s3_upload : world -> string -> string -> string -> string -> world * bool.
Variable splitext_ext : string -> string.
Variable str_lower : string -> string.


Lemma upload_paths_none w bucket_name job_id field_key local_paths :
  (forall w p, path_exists w p = false) ->
  (upload_paths world path_exists s3_upload splitext_ext str_lower
     w bucket_name job_id field_key local_paths).2 = [].
Proof.
  intros H. revert w. induction local_paths as [|p ps IH]; intros w; simpl.
  - done.
  - unfold upload_file_from_path. rewrite H. simpl. apply IH.
Qed.

End UploadFacts.


(** ** The artifact map as the merge reads it *)

Lemma merge_from_artifacts_ext M M' B i A :
  (forall key, default [] (M !! key) = default [] (M' !! key)) ->
  merge_from M B i A = merge_from M' B i A.
Proof.
  intros H.
  assert (Huris : forall n f, s3_uris M n f = s3_uris M' n f).
  { intros n f. apply H. }
  assert (Hc : forall n k, contract_source M n k = contract_source M' n k).
  { intros n [f c]. simpl. by rewrite Huris. }
  assert (Hi : forall n k, installment_source M n k = installment_source M' n k).
  { intros n [f c]. simpl. by rewrite Huris. }
  assert (Happ : forall n ks srcs,
            append_installment_sources M n srcs ks
            = append_installment_sources M' n srcs ks).
  { intros n ks. induction ks as [|k ks IHks]; intros srcs; simpl; [done|].
    destruct (already_in_sources k srcs) as [[]|]; simpl; try done.
    by rewrite Hi. }
  revert i. induction A as [|cu A IH]; intros i; simpl; [done|].
  rewrite IH.
  assert (merge_unit M B i cu = merge_unit M' B i cu) as ->; [|done].
  unfold merge_unit.
  destruct (py_get cu "unit" (PDict [])); simpl; [|done].
  destruct (py_copy _); simpl; [|done].
  destruct (py_get cu "confidence" (PDict [])); simpl; [|done].
  destruct (py_copy _); simpl; [|done].
  destruct (add_installment_data _ _ _); simpl; [|done].
  destruct (deduped_citations cu) as [kA|]; simpl; [|done].
  assert (contract_source M (i + 1) <$> kA
          = contract_source M' (i + 1) <$> kA) as ->.
  { apply list_fmap_ext. intros j k _. apply Hc. }
  unfold add_installment_sources.
  destruct (B !! i); [|done].
  destruct (deduped_citations _); simpl; [|done].
  by rewrite Happ.
Qed.

(** X20. The merge reads the artifact map only through the locator
    lists, with a missing key read as the empty list: two maps that give
    every key the same list, missing or empty alike, give the same
    result. *)
Theorem merge_reads_empty_as_missing
    (M M' : gmap string (list string)) (A B : list pyval) :
  (forall key, default [] (M !! key) = default [] (M' !! key)) ->
  merge_results_with_cutouts M A B = merge_results_with_cutouts M' A B.
Proof. intros H. unfold merge_results_with_cutouts. by apply merge_from_artifacts_ext. Qed.

Lemma merge_reads_empty_as_missing_witness :
  merge_results_with_cutouts {[ "unit1_buyerName" := [] ]}
    sample_contract sample_installment
  = merge_results_with_cutouts ∅ sample_contract sample_installment.
Proof.
  apply merge_reads_empty_as_missing. intros key.
  destruct (decide (key = "unit1_buyerName")) as [->|Hne].
  - by rewrite lookup_singleton_eq.
  - by rewrite lookup_singleton_ne.
Defined.

Lemma list_to_map_all_empty (l : list (string * list string)) key :
  Forall (fun kv => kv.2 = []) l ->
  default [] ((list_to_map l : gmap string (list string)) !! key) = [].
Proof.
  induction 1 as [|[k v] l Hv _ IH]; simpl; [done|].
  simpl in Hv. subst v.
  destruct (decide (k = key)) as [->|Hne].
  - by rewrite lookup_insert_eq.
  - by rewrite lookup_insert_ne.
Qed.

(** X21. When no local cutout file exists, the upload raises nothing and
    returns every key with an empty list, and the merge on that map
    gives what it gives without any artifact. *)
Theorem merge_after_failed_uploads
    (world : Type) (path_exists : world -> string -> bool)
    (s3_upload : world -> string -> string -> string -> string -> world * bool)
    (splitext_ext str_lower : string -> string)
    (w : world) (cutout_paths : list (string * list string))
    (bucket_name job_id : string) (A B : list pyval) :
  (forall w p, path_exists w p = false) ->
  let stored :=
    (upload_cutouts_to_s3 world path_exists s3_upload splitext_ext str_lower
       w cutout_paths bucket_name job_id).2 in
  stored = (fun kv => (kv.1, [])) <$> cutout_paths /\
  merge_results_with_cutouts (list_to_map stored) A B
  = merge_results_with_cutouts ∅ A B.
Proof.
  intros Hnone stored.
  assert (Hstored : stored = (fun kv => (kv.1, [])) <$> cutout_paths).
  { subst stored. revert w.
    induction cutout_paths as [|[k ps] rest IH]; intros w; simpl; [done|].
    rewrite upload_paths_none by done. f_equal. apply IH. }
  split; [done|].
  unfold merge_results_with_cutouts. apply merge_from_artifacts_ext.
  intros key. rewrite lookup_empty. simpl.
  apply list_to_map_all_empty. rewrite Hstored.
  apply Forall_fmap, Forall_forall. by intros [k ps] _.
Qed.

Lemma merge_after_failed_uploads_witness :
  let stored :=
    (upload_cutouts_to_s3 unit (fun _ _ => false)
       (fun w _ _ _ _ => (w, true)) (fun _ => ".png") (fun s => s)
       tt [("unit1_buyerName", ["/tmp/output/cutouts/a.png"])]
       "bucket" "job").2 in
  stored = [("unit1_buyerName", [])] /\
  merge_results_with_cutouts (list_to_map stored)
    sample_contract sample_installment
  = merge_results_with_cutouts ∅ sample_contract sample_installment.
Proof.
  apply (merge_after_failed_uploads unit (fun _ _ => false)
           (fun w _ _ _ _ => (w, true)) (fun _ => ".png") (fun s => s)
           tt [("unit1_buyerName", ["/tmp/output/cutouts/a.png"])]
           "bucket" "job" sample_contract sample_installment).
  done.
Defined.
